(** * EmailPasswordDemo: the email + password authentication component

    A shallow embedding of [src/app/email-password/EmailPasswordDemo.tsx].

    The component is a React function component.  Its eight [useState]
    cells become the record [State]; the bodies of its event handlers
    become values of [Task], a small free monad whose two operations are
    "call a state setter" and "await an SDK promise".  The React runtime,
    the browser and the Supabase service are the environment: they choose
    which [Event] happens next, and what every SDK promise resolves to.

    Conventions.
    - A JavaScript string is a [string]; one [ascii] stands for one UTF-16
      code unit below 256, so [String.length] is JavaScript's [.length].
    - [null] and [undefined] are [None].
    - The union types [Mode] and [ResetMode] are erased at run time, so the
      two cells hold plain strings here as they do in the browser. *)

From Stdlib Require Import String Ascii List Bool Arith Lia.
Import ListNotations.
Open Scope string_scope.
Open Scope nat_scope.

(** ** The browser's URLSearchParams

    [new URLSearchParams(init)] follows the URL standard's
    application/x-www-form-urlencoded parser: a leading [?] is dropped, the
    rest is split on [&], empty pieces are skipped, each piece is split at
    its first [=], [+] becomes a space and percent escapes are decoded.
    Names and values are kept as the decoded byte sequence: the final UTF-8
    decoding maps bytes below 128 to themselves and every other byte away
    from them, so comparing with an ASCII literal is unaffected. *)
Module URLSearchParams.

Definition t := list (string * string).

Definition hex_digit (c : ascii) : option nat :=
  let n := nat_of_ascii c in
  if (48 <=? n) && (n <=? 57) then Some (n - 48)
  else if (65 <=? n) && (n <=? 70) then Some (n - 55)
  else if (97 <=? n) && (n <=? 102) then Some (n - 87)
  else None.

Fixpoint percent_decode (s : string) : string :=
  match s with
  | EmptyString => EmptyString
  | String c tl =>
      if Ascii.eqb c "%" then
        match tl with
        | String h (String l rest) =>
            match hex_digit h, hex_digit l with
            | Some a, Some b =>
                String (ascii_of_nat (16 * a + b)) (percent_decode rest)
            | _, _ => String c (percent_decode tl)
            end
        | _ => String c (percent_decode tl)
        end
      else String c (percent_decode tl)
  end.

Fixpoint plus_to_space (s : string) : string :=
  match s with
  | EmptyString => EmptyString
  | String c tl =>
      String (if Ascii.eqb c "+" then " "%char else c) (plus_to_space tl)
  end.

Fixpoint split (sep : ascii) (s : string) : list string :=
  match s with
  | EmptyString => [EmptyString]
  | String c tl =>
      if Ascii.eqb c sep then EmptyString :: split sep tl
      else match split sep tl with
           | [] => [String c EmptyString]
           | piece :: pieces => String c piece :: pieces
           end
  end.

(** The name runs to the first [=]; the value is what follows it. *)
Fixpoint name_value (s : string) : string * string :=
  match s with
  | EmptyString => (EmptyString, EmptyString)
  | String c tl =>
      if Ascii.eqb c "=" then (EmptyString, tl)
      else let (n, v) := name_value tl in (String c n, v)
  end.

Definition decode (s : string) : string := percent_decode (plus_to_space s).

Fixpoint parse_pieces (pieces : list string) : t :=
  match pieces with
  | [] => []
  | piece :: rest =>
      match piece with
      | EmptyString => parse_pieces rest
      | _ => let (n, v) := name_value piece in
             (decode n, decode v) :: parse_pieces rest
      end
  end.

Definition parse (s : string) : t := parse_pieces (split "&" s).

(** [String.prototype.replace] with an anchored one-character pattern, as
    in [.replace(/^#/, "")]. *)
Definition strip_leading (c : ascii) (s : string) : string :=
  match s with
  | String c' tl => if Ascii.eqb c' c then tl else s
  | EmptyString => s
  end.

Definition create (init : string) : t := parse (strip_leading "?" init).

Fixpoint get (p : t) (name : string) : option string :=
  match p with
  | [] => None
  | (n, v) :: rest => if String.eqb n name then Some v else get rest name
  end.

(** *** Writing the parameters back

    [has], [delete] and [toString].  The list holds names and values as the
    bytes the parser decoded; a browser holds them as strings, which it
    gets by UTF-8 decoding those bytes and turns back into bytes by UTF-8
    encoding when it serialises.  [utf8] is that decoding followed by that
    encoding: well-formed sequences pass unchanged, and every error of the
    decoder leaves the three bytes of U+FFFD. *)

Definition has (p : t) (name : string) : bool :=
  match get p name with Some _ => true | None => false end.

Definition delete (p : t) (name : string) : t :=
  filter (fun nv => negb (String.eqb (fst nv) name)) p.

Definition replacement : string :=
  String (ascii_of_nat 239)
    (String (ascii_of_nat 191) (String (ascii_of_nat 189) EmptyString)).

(** A lead byte: how many continuation bytes follow, and the bounds of the
    first of them. *)
Definition lead (c : ascii) : option (nat * nat * nat) :=
  let b := nat_of_ascii c in
  if (194 <=? b) && (b <=? 223) then Some (1, 128, 191)
  else if (224 <=? b) && (b <=? 239)
  then Some (2, if b =? 224 then 160 else 128, if b =? 237 then 159 else 191)
  else if (240 <=? b) && (b <=? 244)
  then Some (3, if b =? 240 then 144 else 128, if b =? 244 then 143 else 191)
  else None.

(** The decoder's state: [need] continuation bytes still expected, the
    next within [lo] and [hi], after the bytes [seen] of the sequence. *)
Fixpoint utf8_from (s : string) (need lo hi : nat) (seen : string) : string :=
  match s with
  | EmptyString =>
      match need with
      | O => EmptyString
      | S _ => replacement
      end
  | String c tl =>
      let b := nat_of_ascii c in
      let fresh :=
        if b <? 128 then String c (utf8_from tl 0 0 0 EmptyString)
        else match lead c with
             | Some (n, l, h) => utf8_from tl n l h (String c EmptyString)
             | None => replacement ++ utf8_from tl 0 0 0 EmptyString
             end in
      match need with
      | O => fresh
      | S n =>
          if (lo <=? b) && (b <=? hi) then
            match n with
            | O => seen ++ String c (utf8_from tl 0 0 0 EmptyString)
            | S _ => utf8_from tl n 128 191 (seen ++ String c EmptyString)
            end
          else replacement ++ fresh
      end
  end.

Definition utf8 (s : string) : string := utf8_from s 0 0 0 EmptyString.

(** The bytes the urlencoded serialiser leaves as they are: [*-._], digits
    and letters. *)
Definition unreserved (c : ascii) : bool :=
  let n := nat_of_ascii c in
  (n =? 42) || (n =? 45) || (n =? 46) || (n =? 95)
  || ((48 <=? n) && (n <=? 57))
  || ((65 <=? n) && (n <=? 90))
  || ((97 <=? n) && (n <=? 122)).

Definition hex_char (n : nat) : ascii :=
  ascii_of_nat (if n <? 10 then 48 + n else 55 + n).

Fixpoint percent_encode (s : string) : string :=
  match s with
  | EmptyString => EmptyString
  | String c tl =>
      if Ascii.eqb c " " then String "+" (percent_encode tl)
      else if unreserved c then String c (percent_encode tl)
      else String "%"
             (String (hex_char (nat_of_ascii c / 16))
                (String (hex_char (nat_of_ascii c mod 16))
                   (percent_encode tl)))
  end.

Definition encode (s : string) : string := percent_encode (utf8 s).

Fixpoint join (pieces : list string) : string :=
  match pieces with
  | [] => EmptyString
  | [piece] => piece
  | piece :: rest => piece ++ String "&" (join rest)
  end.

Definition toString (p : t) : string :=
  join (map (fun nv => encode (fst nv) ++ String "=" (encode (snd nv))) p).

End URLSearchParams.

(** ** Data *)

(** The fields of the SDK's [User] that the session panel shows. *)
Record User := mkUser {
  user_id : string;
  user_email : option string;
  user_last_sign_in_at : option string
}.

(** The listener reads only [session.user]. *)
Record Session := mkSession {
  session_user : User;
  session_access_token : string
}.

(** The SDK's [AuthError]; the component reads only [message]. *)
Record AuthError := mkAuthError {
  message : string;
  error_status : option nat;
  error_code : option string
}.

(** What an awaited SDK promise resolves to.  Every call site destructures
    [error] alone (or nothing at all), so the [data] half is left out.  The
    SDK reports a failed request through [error]; a promise that rejects
    has no value at all, see [Outcome]. *)
Record SdkResult := mkSdkResult { error : option AuthError }.

(** [window.location], when there is a [window]. *)
Record Location := mkLocation {
  origin : string;
  pathname : string;
  search : string;
  hash : string
}.

(** The eight [useState] cells. *)
Record State := mkState {
  mode : string;
  email : string;
  password : string;
  status : string;
  resetMode : string;
  newPassword : string;
  confirmPassword : string;
  currentUser : option User
}.

(** A call of one of the setters returned by [useState]. *)
Inductive Setter :=
| setMode (v : string)
| setEmail (v : string)
| setPassword (v : string)
| setStatus (v : string)
| setResetMode (v : string)
| setNewPassword (v : string)
| setConfirmPassword (v : string)
| setCurrentUser (v : option User).

Definition apply_setter (s : Setter) (st : State) : State :=
  match s with
  | setMode v => mkState v (email st) (password st) (status st)
      (resetMode st) (newPassword st) (confirmPassword st) (currentUser st)
  | setEmail v => mkState (mode st) v (password st) (status st)
      (resetMode st) (newPassword st) (confirmPassword st) (currentUser st)
  | setPassword v => mkState (mode st) (email st) v (status st)
      (resetMode st) (newPassword st) (confirmPassword st) (currentUser st)
  | setStatus v => mkState (mode st) (email st) (password st) v
      (resetMode st) (newPassword st) (confirmPassword st) (currentUser st)
  | setResetMode v => mkState (mode st) (email st) (password st) (status st)
      v (newPassword st) (confirmPassword st) (currentUser st)
  | setNewPassword v => mkState (mode st) (email st) (password st)
      (status st) (resetMode st) v (confirmPassword st) (currentUser st)
  | setConfirmPassword v => mkState (mode st) (email st) (password st)
      (status st) (resetMode st) (newPassword st) v (currentUser st)
  | setCurrentUser v => mkState (mode st) (email st) (password st)
      (status st) (resetMode st) (newPassword st) (confirmPassword st) v
  end.

(** The promise-returning methods of [supabase.auth] that the component
    calls, with the arguments it passes. *)
Inductive SdkCall :=
| signUp (email password emailRedirectTo : string)
| signInWithPassword (email password : string)
| resetPasswordForEmail (email redirectTo : string)
| updateUser (password : string)
| signOut.

(** Everything the component asks of the SDK: the calls above, the
    subscription made by [onAuthStateChange], and its [unsubscribe]. *)
Inductive SdkOp :=
| Call (c : SdkCall)
| Subscribe (id : nat)
| Unsubscribe (id : nat).

Definition call_name (c : SdkCall) : string :=
  match c with
  | signUp _ _ _ => "signUp"
  | signInWithPassword _ _ => "signInWithPassword"
  | resetPasswordForEmail _ _ => "resetPasswordForEmail"
  | updateUser _ => "updateUser"
  | signOut => "signOut"
  end.

Definition op_name (o : SdkOp) : string :=
  match o with
  | Call c => call_name c
  | Subscribe _ => "onAuthStateChange"
  | Unsubscribe _ => "unsubscribe"
  end.

(** ** Handler bodies

    An [async] function body: setter calls in sequence, with [await]
    handing control back to the event loop until the promise resolves. *)
Inductive Task :=
| Done
| Do (s : Setter) (k : Task)
| Await (c : SdkCall) (k : SdkResult -> Task).

Declare Scope task_scope.
Delimit Scope task_scope with task.
Bind Scope task_scope with Task.
Notation "s ;; k" := (Do s k)
  (at level 61, right associativity) : task_scope.
Open Scope task_scope.

Definition recoveryStatus : string :=
  "Enter a new password to finish resetting your account.".

(** [x === "literal"] for an [x] of type [string | null]. *)
Definition strict_eq (x : option string) (literal : string) : bool :=
  match x with
  | Some v => String.eqb v literal
  | None => false
  end.

(** [window] is [None] where [typeof window === "undefined"]: during the
    render on the server. *)
Definition hasRecoveryParams (window : option Location) : bool :=
  match window with
  | None => false
  | Some location =>
      let hashParams :=
        URLSearchParams.create
          (URLSearchParams.strip_leading "#" (hash location)) in
      if strict_eq (URLSearchParams.get hashParams "type") "recovery"
      then true
      else
        let searchParams := URLSearchParams.create (search location) in
        strict_eq (URLSearchParams.get searchParams "password-reset") "true"
  end.

(** The [useState] initialisers, run once for the first render. *)
Definition initialState (window : option Location) (user : option User)
  : State :=
  {| mode := "signup";
     email := "";
     password := "";
     status := if hasRecoveryParams window then recoveryStatus else "";
     resetMode := if hasRecoveryParams window then "update" else "none";
     newPassword := "";
     confirmPassword := "";
     currentUser := user |}.

Definition afterSignOut (_ : SdkResult) : Task :=
  setCurrentUser None ;;
  setStatus "Signed out successfully" ;;
  setResetMode "none" ;;
  setNewPassword "" ;;
  setConfirmPassword "" ;;
  Done.

Definition handleSignOut : Task := Await signOut afterSignOut.

(** The callback handed to [supabase.auth.onAuthStateChange]. *)
Definition authListener (event : string) (session : option Session) : Task :=
  setCurrentUser (option_map session_user session) ;;
  if String.eqb event "PASSWORD_RECOVERY" then
    setResetMode "update" ;;
    setStatus recoveryStatus ;;
    Done
  else Done.

(** The second effect, with an empty dependency list.  Its call of
    [history.replaceState] rewrites the address bar and touches no state
    cell; the location is not read again after mount. *)
Definition recoveryEffect (window : option Location) : Task :=
  if negb (hasRecoveryParams window)
     || match window with None => true | Some _ => false end
  then Done
  else setResetMode "update" ;; setStatus recoveryStatus ;; Done.

Definition afterSignUp (r : SdkResult) : Task :=
  match error r with
  | Some e => setStatus (message e) ;; Done
  | None => setStatus "Check your inbox to confirm the new account." ;; Done
  end.

Definition afterSignIn (r : SdkResult) : Task :=
  match error r with
  | Some e => setStatus (message e) ;; Done
  | None => setStatus "Signed in successfully" ;; Done
  end.

(** [origin] is [window.location.origin] at the time of the submit. *)
Definition handleSubmit (origin : string) (st : State) : Task :=
  if String.eqb (mode st) "signup" then
    Await (signUp (email st) (password st) (origin ++ "/welcome")) afterSignUp
  else
    Await (signInWithPassword (email st) (password st)) afterSignIn.

Definition afterResetRequest (r : SdkResult) : Task :=
  match error r with
  | Some e => setStatus (message e) ;; Done
  | None =>
      setStatus "Password reset email sent. Check your inbox." ;;
      setResetMode "none" ;;
      setMode "signin" ;;
      Done
  end.

Definition handlePasswordResetRequest (origin : string) (st : State) : Task :=
  Await (resetPasswordForEmail (email st)
           (origin ++ "/email-password?password-reset=true"))
        afterResetRequest.

Definition afterUpdateUser (r : SdkResult) : Task :=
  match error r with
  | Some e => setStatus (message e) ;; Done
  | None =>
      setStatus "Password updated. You're now signed in." ;;
      setResetMode "none" ;;
      setNewPassword "" ;;
      setConfirmPassword "" ;;
      Done
  end.

Definition handlePasswordUpdate (st : State) : Task :=
  if String.length (newPassword st) <? 6 then
    setStatus "New password must be at least 6 characters." ;; Done
  else if negb (String.eqb (newPassword st) (confirmPassword st)) then
    setStatus "Passwords do not match." ;; Done
  else
    Await (updateUser (newPassword st)) afterUpdateUser.

Definition startPasswordReset : Task :=
  setResetMode "request" ;;
  setStatus "" ;;
  setMode "signin" ;;
  setPassword "" ;;
  Done.

Definition cancelPasswordReset : Task :=
  setResetMode "none" ;;
  setMode "signin" ;;
  setStatus "" ;;
  setNewPassword "" ;;
  setConfirmPassword "" ;;
  setPassword "" ;;
  Done.

(** The [onClick] of the two buttons of the sign-up / sign-in switch. *)
Definition selectMode (option : string) : Task :=
  setMode option ;; setStatus "" ;; Done.

(** ** What the render derives from the state *)

Definition isResetRequest (st : State) : bool :=
  String.eqb (resetMode st) "request".

Definition isPasswordUpdate (st : State) : bool :=
  String.eqb (resetMode st) "update".

Definition isResetNone (st : State) : bool :=
  String.eqb (resetMode st) "none".

Definition handleFormSubmit (origin : string) (st : State) : Task :=
  if isResetRequest st then handlePasswordResetRequest origin st
  else if isPasswordUpdate st then handlePasswordUpdate st
  else handleSubmit origin st.

(** The form is rendered under [!currentUser || resetMode !== "none"]. *)
Definition formVisible (st : State) : bool :=
  match currentUser st with None => true | Some _ => false end
  || negb (isResetNone st).

(** The options mapped to the buttons of the mode switch. *)
Definition modeOptions : list string := ["signup"; "signin"].

(** ** The running component

    An in-flight SDK promise, with the rest of the handler that awaits it. *)
Record Pending := mkPending {
  call : SdkCall;
  cont : SdkResult -> Task
}.

(** The mounted component and its surroundings.
    - [ui]: the state cells of the last committed render;
    - [pending]: the promises not yet resolved;
    - [log]: every request made of the SDK so far, oldest first;
    - [mounted]: false once React has torn the component down;
    - [supabase]: the identity of the client the first effect last ran
      with (its only dependency);
    - [subscription]: the subscription the effect's cleanup closes over;
    - [windowOrigin]: [window.location.origin]. *)
Record Machine := mkMachine {
  ui : State;
  pending : list Pending;
  log : list SdkOp;
  mounted : bool;
  supabase : nat;
  subscription : option nat;
  windowOrigin : string
}.

Definition with_ui (f : State -> State) (m : Machine) : Machine :=
  mkMachine (f (ui m)) (pending m) (log m) (mounted m) (supabase m)
    (subscription m) (windowOrigin m).

(** React drops a state update that arrives after the unmount. *)
Definition dispatch (s : Setter) (m : Machine) : Machine :=
  if mounted m then with_ui (apply_setter s) m else m.

Definition issue (c : SdkCall) (k : SdkResult -> Task) (m : Machine)
  : Machine :=
  mkMachine (ui m) (pending m ++ [mkPending c k])%list
    (log m ++ [Call c])%list (mounted m) (supabase m) (subscription m)
    (windowOrigin m).

(** Runs a handler body up to its end or its next [await]. *)
Fixpoint run (t : Task) (m : Machine) : Machine :=
  match t with
  | Done => m
  | Do s k => run k (dispatch s m)
  | Await c k => issue c k m
  end.

Fixpoint remove_nth {A : Type} (i : nat) (l : list A) : list A :=
  match l, i with
  | [], _ => []
  | _ :: tl, O => tl
  | x :: tl, S j => x :: remove_nth j tl
  end.

Definition settle (i : nat) (m : Machine) : Machine :=
  mkMachine (ui m) (remove_nth i (pending m)) (log m) (mounted m)
    (supabase m) (subscription m) (windowOrigin m).

(** The first effect: [supabase.auth.onAuthStateChange(listener)].  The
    SDK always returns [{ data: { subscription } }], so the [?.] of the
    cleanup never short-circuits.  A subscription is named by the position
    of its request in the log. *)
Definition subscribe (client : nat) (m : Machine) : Machine :=
  mkMachine (ui m) (pending m) (log m ++ [Subscribe (length (log m))])%list
    (mounted m) client (Some (length (log m))) (windowOrigin m).

(** The first effect's cleanup: [listener?.subscription.unsubscribe()]. *)
Definition cleanup (m : Machine) : Machine :=
  match subscription m with
  | Some id =>
      mkMachine (ui m) (pending m) (log m ++ [Unsubscribe id])%list
        (mounted m) (supabase m) None (windowOrigin m)
  | None => m
  end.

Definition teardown (m : Machine) : Machine :=
  let m' := cleanup m in
  mkMachine (ui m') (pending m') (log m') false (supabase m')
    (subscription m') (windowOrigin m').

(** The first render in the browser followed by both effects, each run
    once (React's development-only second run of effects is left out).
    [client] is what [getSupabaseBrowserClient()] returned in that render.
    The [replaceState] call that ends the second effect is modelled apart,
    as [recoveryRewrite]; where the browser refuses that call (see
    [replaceStateAccepts]) the effect throws and React removes the
    component, so such a page has no more than the executions given
    here. *)
Definition mount (window : Location) (user : option User) (client : nat)
  : Machine :=
  run (recoveryEffect (Some window))
    (subscribe client
       {| ui := initialState (Some window) user;
          pending := [];
          log := [];
          mounted := true;
          supabase := client;
          subscription := None;
          windowOrigin := origin window |}).

(** What can happen to a mounted component. *)
Inductive Event :=
| ClickSignOut
| SubmitForm
| ClickForgotPassword
| ClickBackToSignIn
| ClickMode (option : string)
| ChangeEmail (v : string)
| ChangePassword (v : string)
| ChangeNewPassword (v : string)
| ChangeConfirmPassword (v : string)
| AuthStateChange (event : string) (session : option Session)
| Resolve (i : nat) (r : SdkResult)
| Render (client : nat)
| Unmount.

Definition is_some {A : Type} (o : option A) : bool :=
  match o with Some _ => true | None => false end.

(** An event can happen when the control it comes from is on the page (the
    conditions are those of the JSX), when the listener is subscribed, or
    when the promise is in flight.  The browser's own form validation
    ([required], [minLength]) would only forbid more. *)
Definition enabled (m : Machine) (ev : Event) : bool :=
  let st := ui m in
  match ev with
  | ClickSignOut => mounted m && is_some (currentUser st)
  | SubmitForm => mounted m && formVisible st
  | ClickForgotPassword =>
      mounted m && formVisible st && isResetNone st
      && String.eqb (mode st) "signin"
  | ClickBackToSignIn => mounted m && formVisible st && negb (isResetNone st)
  | ClickMode option =>
      mounted m && formVisible st && isResetNone st
      && existsb (String.eqb option) modeOptions
  | ChangeEmail _ => mounted m && formVisible st && negb (isPasswordUpdate st)
  | ChangePassword _ => mounted m && formVisible st && isResetNone st
  | ChangeNewPassword _ => mounted m && formVisible st && isPasswordUpdate st
  | ChangeConfirmPassword _ =>
      mounted m && formVisible st && isPasswordUpdate st
  | AuthStateChange _ _ => is_some (subscription m)
  | Resolve i _ => i <? length (pending m)
  | Render _ => mounted m
  | Unmount => mounted m
  end.

Definition step (m : Machine) (ev : Event) : Machine :=
  match ev with
  | ClickSignOut => run handleSignOut m
  | SubmitForm => run (handleFormSubmit (windowOrigin m) (ui m)) m
  | ClickForgotPassword => run startPasswordReset m
  | ClickBackToSignIn => run cancelPasswordReset m
  | ClickMode option => run (selectMode option) m
  | ChangeEmail v => run (setEmail v ;; Done) m
  | ChangePassword v => run (setPassword v ;; Done) m
  | ChangeNewPassword v => run (setNewPassword v ;; Done) m
  | ChangeConfirmPassword v => run (setConfirmPassword v ;; Done) m
  | AuthStateChange event session => run (authListener event session) m
  | Resolve i r =>
      match nth_error (pending m) i with
      | Some p => run (cont p r) (settle i m)
      | None => m
      end
  | Render client =>
      if Nat.eqb client (supabase m) then m
      else subscribe client (cleanup m)
  | Unmount => teardown m
  end.

(** Runs a sequence of events, refusing one that cannot happen. *)
Fixpoint steps (m : Machine) (evs : list Event) : option Machine :=
  match evs with
  | [] => Some m
  | ev :: rest => if enabled m ev then steps (step m ev) rest else None
  end.

(** How an awaited promise ends: it resolves to a value, or it rejects.
    No handler has a [try] around its [await]: when the promise rejects,
    the [async] handler ends there, nothing of what follows the [await]
    runs, and the call is no longer in flight. *)
Inductive Outcome :=
| Resolved (r : SdkResult)
| Rejected.

Definition answer (m : Machine) (i : nat) (o : Outcome) : Machine :=
  match o with
  | Resolved r => step m (Resolve i r)
  | Rejected => settle i m
  end.

(** ** Vocabulary of the statements *)

(** The setter calls a handler body makes before its end or first
    [await], and the promise it then waits for. *)
Fixpoint setters (t : Task) : list Setter :=
  match t with
  | Done => []
  | Do s k => s :: setters k
  | Await _ _ => []
  end.

Fixpoint awaited (t : Task) : list Pending :=
  match t with
  | Done => []
  | Do _ k => awaited k
  | Await c k => [mkPending c k]
  end.

Definition apply_setters (l : list Setter) (st : State) : State :=
  fold_left (fun acc s => apply_setter s acc) l st.

(** The code after each [await], by the call awaited: every call has one
    call site. *)
Definition kont (c : SdkCall) : SdkResult -> Task :=
  match c with
  | signUp _ _ _ => afterSignUp
  | signInWithPassword _ _ => afterSignIn
  | resetPasswordForEmail _ _ => afterResetRequest
  | updateUser _ => afterUpdateUser
  | signOut => afterSignOut
  end.

(** Every promise in flight is awaited by the code that follows its call
    site. *)
Definition canonical (m : Machine) : Prop :=
  Forall (fun p => cont p = kont (call p)) (pending m).

(** The members of the union type [ResetMode]. *)
Definition resetModes : list string := ["none"; "request"; "update"].

Definition well_typed (st : State) : Prop :=
  In (mode st) modeOptions /\ In (resetMode st) resetModes.

(** How many of the three reset modes the render sees as active. *)
Definition activeResetModes (st : State) : nat :=
  length (filter (fun b : bool => b)
            [isResetNone st; isResetRequest st; isPasswordUpdate st]).

Definition ok : SdkResult := mkSdkResult None.
Definition failed (e : AuthError) : SdkResult := mkSdkResult (Some e).

(** ** Reference inputs *)

Definition plainLocation : Location :=
  mkLocation "https://demo.test" "/email-password" "" "".

Definition resetLinkLocation : Location :=
  mkLocation "https://demo.test" "/email-password" "?password-reset=true" "".

Definition recoveryHashLocation : Location :=
  mkLocation "https://demo.test" "/email-password" ""
    "#access_token=abc&type=recovery".

Definition alice : User :=
  mkUser "u-1" (Some "alice@demo.test") (Some "2024-01-01T00:00:00Z").

Definition aliceSession : Session := mkSession alice "token".

Definition rateLimited : AuthError :=
  mkAuthError "Email rate limit exceeded" (Some 429)
    (Some "over_email_send_rate_limit").

(** The task an event starts, the machine it starts on being [m] (for
    [Resolve], [m] without the settled promise). *)
Definition task_of (m : Machine) (ev : Event) : Task :=
  match ev with
  | ClickSignOut => handleSignOut
  | SubmitForm => handleFormSubmit (windowOrigin m) (ui m)
  | ClickForgotPassword => startPasswordReset
  | ClickBackToSignIn => cancelPasswordReset
  | ClickMode option => selectMode option
  | ChangeEmail v => setEmail v ;; Done
  | ChangePassword v => setPassword v ;; Done
  | ChangeNewPassword v => setNewPassword v ;; Done
  | ChangeConfirmPassword v => setConfirmPassword v ;; Done
  | AuthStateChange event session => authListener event session
  | Resolve i r =>
      match nth_error (pending m) i with
      | Some p => cont p r
      | None => Done
      end
  | Render _ => Done
  | Unmount => Done
  end.

(** A setter call that respects the two union types. *)
Definition typed_setter (s : Setter) : Prop :=
  match s with
  | setMode v => In v modeOptions
  | setResetMode v => In v resetModes
  | _ => True
  end.

(** One move of the reset mode along the cycles none, request, none and
    none, update, none (or no move at all). *)
Definition cycle_step (a b : string) : Prop :=
  a = b
  \/ (a = "none" /\ b = "request") \/ (a = "request" /\ b = "none")
  \/ (a = "none" /\ b = "update") \/ (a = "update" /\ b = "none").

(** What the two lifecycle events ask of the SDK: the cleanup of the
    first effect, and its re-run when the client it depends on changed. *)
Definition unsubscribed (m : Machine) : list SdkOp :=
  match subscription m with
  | Some id => [Unsubscribe id]
  | None => []
  end.

Definition lifecycle_ops (m : Machine) (ev : Event) : list SdkOp :=
  match ev with
  | Render client =>
      if Nat.eqb client (supabase m) then []
      else (unsubscribed m
            ++ [Subscribe (length (log m ++ unsubscribed m))])%list
  | Unmount => unsubscribed m
  | _ => []
  end.

(** The four calls whose [error] the handlers read. *)
Definition checkedCalls : list string :=
  ["signUp"; "signInWithPassword"; "resetPasswordForEmail"; "updateUser"].

(** The state a completed sign-out leaves behind. *)
Definition signedOut (st : State) : State :=
  {| mode := mode st;
     email := email st;
     password := password st;
     status := "Signed out successfully";
     resetMode := "none";
     newPassword := "";
     confirmPassword := "";
     currentUser := None |}.

(** The four text fields: email, password, new password, confirmation. *)
Definition textFields (st : State) : string * string * string * string :=
  (email st, password st, newPassword st, confirmPassword st).

(** The page URL indicates a recovery redirect: the hash parameter "type"
    equals "recovery", or the query parameter "password-reset" equals
    "true". *)
Definition recoveryRedirect (location : Location) : Prop :=
  URLSearchParams.get
    (URLSearchParams.create
       (URLSearchParams.strip_leading "#" (hash location))) "type"
  = Some "recovery"
  \/ URLSearchParams.get (URLSearchParams.create (search location))
       "password-reset"
     = Some "true".

(** The five promise-returning calls of the component. *)
Definition componentCalls : list string :=
  ["signUp"; "signInWithPassword"; "resetPasswordForEmail"; "updateUser";
   "signOut"].

(** Everything the component asks of the SDK, by name. *)
Definition componentOps : list string :=
  (componentCalls ++ ["onAuthStateChange"; "unsubscribe"])%list.

(** A request as the component builds it: the redirect URLs hang off the
    page's origin, and a password sent to updateUser has passed the length
    check. *)
Definition issued (origin : string) (o : SdkOp) : Prop :=
  match o with
  | Call (signUp _ _ emailRedirectTo) =>
      emailRedirectTo = origin ++ "/welcome"
  | Call (resetPasswordForEmail _ redirectTo) =>
      redirectTo = origin ++ "/email-password?password-reset=true"
  | Call (updateUser password) => 6 <= String.length password
  | _ => True
  end.

(** [getSupabaseBrowserClient] lives outside this file; the client it
    returns in a render is the argument of [Render].  An execution is
    stable when every render got the client of the first one, as it does
    when the function hands out one shared client. *)
Definition same_client (client : nat) (ev : Event) : bool :=
  match ev with
  | Render c => Nat.eqb c client
  | _ => true
  end.

Definition stable (client : nat) (evs : list Event) : bool :=
  forallb (same_client client) evs.

(** The subscription requests in a log, in order. *)
Definition is_lifecycle (o : SdkOp) : bool :=
  match o with
  | Call _ => false
  | Subscribe _ | Unsubscribe _ => true
  end.

Definition lifecycle (l : list SdkOp) : list SdkOp := filter is_lifecycle l.

(** How often a log unsubscribes the subscription [id]. *)
Definition is_unsubscribe (id : nat) (o : SdkOp) : bool :=
  match o with
  | Unsubscribe i => Nat.eqb i id
  | _ => false
  end.

Definition unsubscribes (id : nat) (l : list SdkOp) : nat :=
  length (filter (is_unsubscribe id) l).

Definition holds (id : nat) (sub : option nat) : bool :=
  match sub with
  | Some i => Nat.eqb i id
  | None => false
  end.

(** ** More of what the render derives from the state *)

Definition primaryButtonLabel (st : State) : string :=
  if isResetRequest st then "Send reset email"
  else if isPasswordUpdate st then "Update password"
  else if String.eqb (mode st) "signup" then "Create account"
  else "Sign in".

Definition primaryHeading (st : State) : string :=
  if isResetRequest st then "Request password reset"
  else if isPasswordUpdate st then "Choose a new password"
  else if String.eqb (mode st) "signup" then "Create an account"
  else "Welcome back".

Definition badgeLabel (st : State) : string :=
  if isResetRequest st || isPasswordUpdate st then "Recovery"
  else "Credentials".

(** The controls of the form, each under the condition the JSX renders it
    with. *)
Definition showsModeSwitch (st : State) : bool :=
  formVisible st && isResetNone st.

Definition showsBackButton (st : State) : bool :=
  formVisible st && negb (isResetNone st).

Definition showsEmailInput (st : State) : bool :=
  formVisible st && negb (isPasswordUpdate st).

Definition showsPasswordInput (st : State) : bool :=
  formVisible st && isResetNone st.

Definition showsNewPasswordInputs (st : State) : bool :=
  formVisible st && isPasswordUpdate st.

Definition showsForgotPassword (st : State) : bool :=
  formVisible st && isResetNone st && String.eqb (mode st) "signin".

(** ** The address rewrite of the second effect

    [if (x)] for a string [x]. *)
Definition truthy (x : string) : bool :=
  match x with
  | EmptyString => false
  | String _ _ => true
  end.

(** The query string the second effect builds: the parameters of
    [window.location.search] without "password-reset". *)
Definition rewrittenQuery (location : Location) : string :=
  let searchParams :=
    URLSearchParams.create
      (URLSearchParams.strip_leading "?" (search location)) in
  let searchParams :=
    if URLSearchParams.has searchParams "password-reset"
    then URLSearchParams.delete searchParams "password-reset"
    else searchParams in
  URLSearchParams.toString searchParams.

Definition rewrittenSearch (location : Location) : string :=
  if truthy (rewrittenQuery location)
  then String "?" (rewrittenQuery location)
  else "".

(** The URL handed to [window.history.replaceState]. *)
Definition rewrittenUrl (location : Location) : string :=
  pathname location ++ rewrittenSearch location.

(** The call of [replaceState] the second effect makes, if it makes one. *)
Definition recoveryRewrite (window : option Location) : option string :=
  if negb (hasRecoveryParams window)
     || match window with None => true | Some _ => false end
  then None
  else option_map rewrittenUrl window.

(** What [window.location] shows after [replaceState] with that URL, which
    has a path, perhaps a query, and no fragment.  (A path that begins with
    two slashes would make the URL name another host; the browser then
    refuses the call.) *)
Definition rewrittenLocation (location : Location) : Location :=
  mkLocation (origin location) (pathname location)
    (rewrittenSearch location) "".

(** Whether [replaceState] takes the URL.  The browser resolves it against
    the page's address and throws a SecurityError when the result is on
    another origin.  The URL begins with the page's path: one leading slash
    keeps it on the page's origin, two make what follows a host name.  (The
    path of a page served over http or https always begins with a slash and
    holds no backslash.) *)
Definition replaceStateAccepts (location : Location) : bool :=
  match pathname location with
  | String c1 (String c2 _) => Ascii.eqb c1 "/" && negb (Ascii.eqb c2 "/")
  | String c1 EmptyString => Ascii.eqb c1 "/"
  | EmptyString => false
  end.

(** The address once the second effect has made its call: the rewritten
    one where the browser took the URL, the old one where it threw. *)
Definition addressAfterRewrite (location : Location) : Location :=
  if replaceStateAccepts location then rewrittenLocation location
  else location.

(** The string of the given bytes. *)
Definition bytes (l : list nat) : string :=
  fold_right (fun n s => String (ascii_of_nat n) s) EmptyString l.

(** Whether the byte [c] occurs in [s]. *)
Fixpoint occurs (c : ascii) (s : string) : bool :=
  match s with
  | EmptyString => false
  | String c' tl => Ascii.eqb c' c || occurs c tl
  end.

Fixpoint ascii_only (s : string) : bool :=
  match s with
  | EmptyString => true
  | String c tl => (nat_of_ascii c <? 128) && ascii_only tl
  end.

(** ** Vocabulary of the further properties *)

(** The messages the component writes into the status line itself. *)
Definition ownMessages : list string :=
  [""; recoveryStatus; "Signed out successfully";
   "Check your inbox to confirm the new account."; "Signed in successfully";
   "Password reset email sent. Check your inbox.";
   "New password must be at least 6 characters."; "Passwords do not match.";
   "Password updated. You're now signed in."].

(** The messages of the errors the SDK returned in the course of [evs]. *)
Definition reported (evs : list Event) : list string :=
  flat_map (fun ev =>
              match ev with
              | Resolve _ r =>
                  match error r with
                  | Some e => [message e]
                  | None => []
                  end
              | _ => []
              end) evs.

Definition is_call (o : SdkOp) : bool :=
  match o with
  | Call _ => true
  | _ => false
  end.

(** The two user actions whose handlers call the SDK. *)
Definition asks_sdk (ev : Event) : bool :=
  match ev with
  | SubmitForm | ClickSignOut => true
  | _ => false
  end.

(** What was last typed into the email input. *)
Definition typedEmail (evs : list Event) : string :=
  fold_left (fun acc ev =>
               match ev with
               | ChangeEmail v => v
               | _ => acc
               end) evs "".

(** Replays the subscription requests of a log from the subscription
    [open] at its start: a subscribe needs none to be open, an unsubscribe
    needs its own to be the open one.  [None] when the log breaks that
    discipline. *)
Fixpoint replay (open : option nat) (l : list SdkOp) : option (option nat) :=
  match l with
  | [] => Some open
  | Call _ :: rest => replay open rest
  | Subscribe id :: rest =>
      match open with
      | None => replay (Some id) rest
      | Some _ => None
      end
  | Unsubscribe id :: rest =>
      match open with
      | Some id' => if Nat.eqb id id' then replay None rest else None
      | None => None
      end
  end.

(** The events that need neither the auth service to speak nor React to
    re-render: what the user does, and the answer to a call already made. *)
Definition user_or_answer (ev : Event) : bool :=
  match ev with
  | AuthStateChange _ _ | Render _ | Unmount => false
  | _ => true
  end.

(** ** Sanity checks *)

Example create_follows_the_urlencoded_parser :
  URLSearchParams.create "?a=1&&b=%41+c&d&=x&e=1=2&f=%zz"
  = [("a", "1"); ("b", "A c"); ("d", ""); ("", "x"); ("e", "1=2");
     ("f", "%zz")].
Proof. reflexivity. Qed.

Example get_returns_the_first_value :
  URLSearchParams.get (URLSearchParams.create "type=signup&type=recovery")
    "type"
  = Some "signup".
Proof. reflexivity. Qed.

Example hasRecoveryParams_examples :
  hasRecoveryParams None = false
  /\ hasRecoveryParams (Some plainLocation) = false
  /\ hasRecoveryParams (Some resetLinkLocation) = true
  /\ hasRecoveryParams (Some recoveryHashLocation) = true
  /\ hasRecoveryParams
       (Some (mkLocation "https://demo.test" "/email-password"
                "?password-reset=false" "#type=signup&type=recovery"))
     = false.
Proof. repeat split; reflexivity. Qed.

Example utf8_keeps_well_formed_text_and_marks_errors :
  let fffd := [239; 191; 189] in
  URLSearchParams.utf8 (bytes [99; 97; 102; 195; 169])
  = bytes [99; 97; 102; 195; 169]
  /\ URLSearchParams.utf8 (bytes [97; 255; 98])
     = bytes ([97] ++ fffd ++ [98])
  /\ URLSearchParams.utf8 (bytes [226; 130]) = bytes fffd
  /\ URLSearchParams.utf8 (bytes [226; 130; 65]) = bytes (fffd ++ [65])
  /\ URLSearchParams.utf8 (bytes [192; 128]) = bytes (fffd ++ fffd)
  /\ URLSearchParams.utf8 (bytes [237; 160; 128])
     = bytes (fffd ++ fffd ++ fffd)
  /\ URLSearchParams.utf8 (bytes [240; 159; 152; 128])
     = bytes [240; 159; 152; 128]
  /\ URLSearchParams.utf8 (bytes [244; 144; 128; 128])
     = bytes (fffd ++ fffd ++ fffd ++ fffd)
  /\ URLSearchParams.utf8 (bytes [226; 226; 130; 172])
     = bytes (fffd ++ [226; 130; 172]).
Proof. repeat split; reflexivity. Qed.

Example toString_follows_the_urlencoded_serialiser :
  URLSearchParams.toString
    [("a b", "1&2=3"); ("", ""); ("x", "~*-._/+%")]
  = "a+b=1%262%3D3&=&x=%7E*-._%2F%2B%25".
Proof. reflexivity. Qed.

Example the_rewrite_drops_the_marker_and_the_fragment :
  rewrittenUrl
    (mkLocation "https://demo.test" "/email-password"
       "?password-reset=true&next=%2Fhome&password-reset=again" "#type=recovery")
  = "/email-password?next=%2Fhome"
  /\ rewrittenUrl resetLinkLocation = "/email-password"
  /\ recoveryRewrite (Some plainLocation) = None
  /\ recoveryRewrite None = None.
Proof. repeat split; reflexivity. Qed.

Example a_refused_rewrite_leaves_the_recovery_address :
  let location :=
    mkLocation "https://demo.test" "//other.test/email-password"
      "?password-reset=true" "" in
  rewrittenUrl location = "//other.test/email-password"
  /\ replaceStateAccepts location = false
  /\ addressAfterRewrite location = location
  /\ hasRecoveryParams (Some (addressAfterRewrite location)) = true.
Proof. repeat split; reflexivity. Qed.

Example a_password_update_from_the_reset_link :
  option_map (fun m => (ui m, log m, length (pending m)))
    (steps (mount resetLinkLocation None 0)
       [AuthStateChange "PASSWORD_RECOVERY" (Some aliceSession);
        ChangeNewPassword "secret1"; ChangeConfirmPassword "secret1";
        SubmitForm; Resolve 0 ok; ClickSignOut; Resolve 0 ok; Unmount])
  = Some ({| mode := "signup";
             email := "";
             password := "";
             status := "Signed out successfully";
             resetMode := "none";
             newPassword := "";
             confirmPassword := "";
             currentUser := None |},
          [Subscribe 0; Call (updateUser "secret1"); Call signOut;
           Unsubscribe 0],
          0).
Proof. reflexivity. Qed.

Example a_control_that_is_not_rendered_cannot_be_used :
  steps (mount plainLocation (Some alice) 0) [SubmitForm] = None
  /\ steps (mount plainLocation None 0) [ClickForgotPassword] = None
  /\ steps (mount plainLocation None 0) [ClickSignOut] = None
  /\ steps (mount plainLocation None 0) [ClickMode "reset"] = None
  /\ steps (mount plainLocation None 0) [Unmount; SubmitForm] = None.
Proof. repeat split; reflexivity. Qed.

(** ** How [run] acts on a machine *)

Lemma run_mounted (t : Task) (m : Machine) : mounted (run t m) = mounted m.
Proof.
  revert m; induction t as [| s k IH | c k _]; intros m; simpl; auto.
  rewrite IH. unfold dispatch. destruct (mounted m) eqn:E; simpl; auto.
Qed.

Lemma run_supabase (t : Task) (m : Machine) : supabase (run t m) = supabase m.
Proof.
  revert m; induction t as [| s k IH | c k _]; intros m; simpl; auto.
  rewrite IH. unfold dispatch. destruct (mounted m) eqn:E; simpl; auto.
Qed.

Lemma run_subscription (t : Task) (m : Machine) :
  subscription (run t m) = subscription m.
Proof.
  revert m; induction t as [| s k IH | c k _]; intros m; simpl; auto.
  rewrite IH. unfold dispatch. destruct (mounted m) eqn:E; simpl; auto.
Qed.

Lemma run_windowOrigin (t : Task) (m : Machine) :
  windowOrigin (run t m) = windowOrigin m.
Proof.
  revert m; induction t as [| s k IH | c k _]; intros m; simpl; auto.
  rewrite IH. unfold dispatch. destruct (mounted m) eqn:E; simpl; auto.
Qed.

Lemma run_pending (t : Task) (m : Machine) :
  pending (run t m) = (pending m ++ awaited t)%list.
Proof.
  revert m; induction t as [| s k IH | c k _]; intros m; simpl.
  - now rewrite app_nil_r.
  - rewrite IH. unfold dispatch. destruct (mounted m) eqn:E; simpl; auto.
  - reflexivity.
Qed.

Lemma run_log (t : Task) (m : Machine) :
  log (run t m) = (log m ++ map (fun p => Call (call p)) (awaited t))%list.
Proof.
  revert m; induction t as [| s k IH | c k _]; intros m; simpl.
  - now rewrite app_nil_r.
  - rewrite IH. unfold dispatch. destruct (mounted m) eqn:E; simpl; auto.
  - reflexivity.
Qed.

Lemma run_ui (t : Task) (m : Machine) :
  ui (run t m) =
  if mounted m then apply_setters (setters t) (ui m) else ui m.
Proof.
  revert m; induction t as [| s k IH | c k _]; intros m; simpl.
  - now destruct (mounted m).
  - rewrite IH. unfold dispatch.
    destruct (mounted m) eqn:E; simpl; rewrite ?E; reflexivity.
  - now destruct (mounted m).
Qed.

Lemma cleanup_frame (m : Machine) :
  ui (cleanup m) = ui m /\ pending (cleanup m) = pending m
  /\ mounted (cleanup m) = mounted m
  /\ windowOrigin (cleanup m) = windowOrigin m.
Proof. unfold cleanup. destruct (subscription m); simpl; auto. Qed.

(** Every step is the run of one task: the state cells change by the
    task's setters, and only while the component is mounted. *)
Lemma step_ui (m : Machine) (ev : Event) :
  ui (step m ev) =
  if mounted m then apply_setters (setters (task_of m ev)) (ui m) else ui m.
Proof.
  destruct ev as [ | | | | o | v | v | v | v | e s | i r | c | ]; unfold step, task_of;
    try apply run_ui.
  - destruct (nth_error (pending m) i); [exact (run_ui _ (settle i m)) | now destruct (mounted m)].
  - destruct (Nat.eqb c (supabase m)); simpl;
      [| destruct (cleanup_frame m) as (-> & _)]; now destruct (mounted m).
  - simpl. destruct (cleanup_frame m) as (-> & _); now destruct (mounted m).
Qed.

Lemma step_pending (m : Machine) (ev : Event) :
  pending (step m ev) =
  ((match ev with
    | Resolve i _ => remove_nth i (pending m)
    | _ => pending m
    end) ++ awaited (task_of m ev))%list.
Proof.
  destruct ev as [ | | | | o | v | v | v | v | e s | i r | c | ]; unfold step, task_of;
    try apply run_pending.
  - destruct (nth_error (pending m) i) eqn:E.
    + exact (run_pending _ (settle i m)).
    + rewrite app_nil_r. revert i E.
      induction (pending m) as [| x l IH]; intros [| i] E; simpl in *;
        try discriminate; auto.
      now rewrite <- IH.
  - rewrite app_nil_r.
    destruct (Nat.eqb c (supabase m)); simpl; auto.
    now destruct (cleanup_frame m) as (_ & -> & _).
  - rewrite app_nil_r. simpl.
    now destruct (cleanup_frame m) as (_ & -> & _).
Qed.

Lemma step_mounted (m : Machine) (ev : Event) :
  mounted (step m ev) =
  match ev with Unmount => false | _ => mounted m end.
Proof.
  destruct ev as [ | | | | o | v | v | v | v | e s | i r | c | ]; unfold step;
    try apply run_mounted; auto.
  - destruct (nth_error (pending m) i); [exact (run_mounted _ (settle i m)) | reflexivity].
  - destruct (Nat.eqb c (supabase m)); simpl; auto.
    now destruct (cleanup_frame m) as (_ & _ & -> & _).
Qed.

Lemma step_windowOrigin (m : Machine) (ev : Event) :
  windowOrigin (step m ev) = windowOrigin m.
Proof.
  destruct ev as [ | | | | o | v | v | v | v | e s | i r | c | ]; unfold step;
    try apply run_windowOrigin; auto.
  - destruct (nth_error (pending m) i); [exact (run_windowOrigin _ (settle i m)) | reflexivity].
  - destruct (Nat.eqb c (supabase m)); simpl; auto.
    now destruct (cleanup_frame m) as (_ & _ & _ & ->).
  - simpl. now destruct (cleanup_frame m) as (_ & _ & _ & ->).
Qed.

(** ** Invariants of an execution *)

Lemma steps_invariant (P : Machine -> Prop) :
  (forall m ev, P m -> enabled m ev = true -> P (step m ev)) ->
  forall evs m m', P m -> steps m evs = Some m' -> P m'.
Proof.
  intros Hstep evs; induction evs as [| ev evs IH]; intros m m' Hm H; simpl in H.
  - now inversion H; subst.
  - destruct (enabled m ev) eqn:E; [| discriminate].
    eapply IH; [| exact H]. now apply Hstep.
Qed.

Lemma kont_awaited (c : SdkCall) (r : SdkResult) : awaited (kont c r) = [].
Proof. destruct c, r as [[e |]]; reflexivity. Qed.

Lemma remove_nth_Forall {A : Type} (P : A -> Prop) (i : nat) (l : list A) :
  Forall P l -> Forall P (remove_nth i l).
Proof.
  intros H; revert i; induction H as [| x l Hx Hl IH]; intros [| i]; simpl;
    auto.
Qed.

Lemma canonical_lookup (m : Machine) (i : nat) (p : Pending) :
  canonical m -> nth_error (pending m) i = Some p -> cont p = kont (call p).
Proof.
  intros Hc Hp. unfold canonical in Hc. rewrite Forall_forall in Hc.
  apply Hc. eapply nth_error_In; eauto.
Qed.

Lemma task_of_awaited_canonical (m : Machine) (ev : Event) :
  canonical m ->
  Forall (fun p => cont p = kont (call p)) (awaited (task_of m ev)).
Proof.
  intros Hc. destruct ev as [ | | | | o | v | v | v | v | e s | i r | c | ]; simpl;
    try (repeat constructor).
  - unfold handleFormSubmit, handlePasswordResetRequest, handlePasswordUpdate,
      handleSubmit.
    destruct (isResetRequest (ui m)); [repeat constructor |].
    destruct (isPasswordUpdate (ui m)).
    + destruct (String.length (newPassword (ui m)) <? 6); [constructor |].
      destruct (negb (newPassword (ui m) =? confirmPassword (ui m))%string);
        repeat constructor.
    + destruct (mode (ui m) =? "signup")%string; repeat constructor.
  - unfold authListener. simpl.
    destruct (e =? "PASSWORD_RECOVERY")%string; constructor.
  - destruct (nth_error (pending m) i) eqn:E; [| constructor].
    rewrite (canonical_lookup m i p Hc E), kont_awaited. constructor.
Qed.

Lemma canonical_step (m : Machine) (ev : Event) :
  canonical m -> canonical (step m ev).
Proof.
  intros Hc. unfold canonical. rewrite step_pending.
  apply Forall_app; split.
  - destruct ev as [ | | | | o | v | v | v | v | e s | i r | c | ]; auto.
    now apply remove_nth_Forall.
  - now apply task_of_awaited_canonical.
Qed.

Lemma canonical_mount (window : Location) (user : option User) (client : nat) :
  canonical (mount window user client).
Proof.
  unfold canonical, mount. rewrite run_pending. simpl.
  unfold recoveryEffect.
  destruct (negb (hasRecoveryParams (Some window)) || false); constructor.
Qed.

Lemma canonical_steps window user client evs m :
  steps (mount window user client) evs = Some m -> canonical m.
Proof.
  apply steps_invariant.
  - intros; now apply canonical_step.
  - apply canonical_mount.
Qed.

(** ** The two union types hold at run time *)

Ltac all_typed :=
  repeat first [apply Forall_nil | apply Forall_cons]; simpl; auto.

Lemma apply_setter_typed (s : Setter) (st : State) :
  typed_setter s -> well_typed st -> well_typed (apply_setter s st).
Proof. destruct s; intros Hs [Hm Hr]; split; simpl in *; auto. Qed.

Lemma apply_setters_typed (l : list Setter) (st : State) :
  Forall typed_setter l -> well_typed st -> well_typed (apply_setters l st).
Proof.
  intros Hl; revert st; induction Hl as [| s l Hs _ IH]; intros st Hst; simpl.
  - exact Hst.
  - apply IH. now apply apply_setter_typed.
Qed.

Lemma kont_typed (c : SdkCall) (r : SdkResult) :
  Forall typed_setter (setters (kont c r)).
Proof.
  destruct c, r as [[e |]]; simpl; all_typed.
Qed.

Lemma handleFormSubmit_typed (o : string) (st : State) :
  Forall typed_setter (setters (handleFormSubmit o st)).
Proof.
  unfold handleFormSubmit, handlePasswordResetRequest, handlePasswordUpdate,
    handleSubmit.
  destruct (isResetRequest st); [all_typed |].
  destruct (isPasswordUpdate st).
  - destruct (String.length (newPassword st) <? 6); [all_typed |].
    destruct (negb (newPassword st =? confirmPassword st)%string); all_typed.
  - destruct (mode st =? "signup")%string; all_typed.
Qed.

Lemma task_of_typed (m : Machine) (ev : Event) :
  canonical m -> enabled m ev = true ->
  Forall typed_setter (setters (task_of m ev)).
Proof.
  intros Hc He.
  destruct ev as [ | | | | o | v | v | v | v | e s | i r | c | ];
    unfold task_of; try (simpl; now all_typed).
  - apply handleFormSubmit_typed.
  - unfold enabled in He. apply andb_prop in He as [_ He].
    apply existsb_exists in He as (x & Hx & Hox).
    apply String.eqb_eq in Hox; subst x.
    simpl. all_typed.
  - unfold authListener. simpl.
    destruct (e =? "PASSWORD_RECOVERY")%string; all_typed.
  - destruct (nth_error (pending m) i) eqn:E; [| constructor].
    rewrite (canonical_lookup m i p Hc E). apply kont_typed.
Qed.

Lemma well_typed_step (m : Machine) (ev : Event) :
  canonical m -> well_typed (ui m) -> enabled m ev = true ->
  well_typed (ui (step m ev)).
Proof.
  intros Hc Hw He. rewrite step_ui. destruct (mounted m); [| exact Hw].
  apply apply_setters_typed; [now apply task_of_typed | exact Hw].
Qed.

Lemma well_typed_initialState (window : option Location) (user : option User) :
  well_typed (initialState window user).
Proof.
  split; simpl; auto. destruct (hasRecoveryParams window); auto.
Qed.

Lemma well_typed_mount (window : Location) (user : option User) (client : nat) :
  well_typed (ui (mount window user client)).
Proof.
  unfold mount. rewrite run_ui. simpl.
  apply apply_setters_typed; [| apply well_typed_initialState].
  unfold recoveryEffect.
  destruct (negb (hasRecoveryParams (Some window)) || false); all_typed.
Qed.

Lemma well_typed_steps window user client evs m :
  steps (mount window user client) evs = Some m ->
  canonical m /\ well_typed (ui m).
Proof.
  apply (steps_invariant (fun m => canonical m /\ well_typed (ui m))).
  - intros m0 ev [Hc Hw] He; split;
      [now apply canonical_step | now apply well_typed_step].
  - split; [apply canonical_mount | apply well_typed_mount].
Qed.

Lemma well_typed_one_active (st : State) :
  well_typed st -> activeResetModes st = 1.
Proof.
  intros [_ Hr]. unfold activeResetModes, isResetNone, isResetRequest,
    isPasswordUpdate.
  simpl in Hr. destruct Hr as [<- | [<- | [<- | []]]]; reflexivity.
Qed.

(** C7.  In every state an execution reaches, the form mode is one of
    "signup" and "signin" and the reset mode is one of "none", "request"
    and "update", so exactly one of the three reset modes is active; and
    every event that can happen next leaves both memberships in place. *)
Theorem modes_stay_in_their_types
  (window : Location) (user : option User) (client : nat)
  (evs : list Event) (m : Machine)
  (Hexec : steps (mount window user client) evs = Some m) :
  In (mode (ui m)) ["signup"; "signin"]
  /\ In (resetMode (ui m)) ["none"; "request"; "update"]
  /\ activeResetModes (ui m) = 1
  /\ forall ev, enabled m ev = true ->
       In (mode (ui (step m ev))) ["signup"; "signin"]
       /\ In (resetMode (ui (step m ev))) ["none"; "request"; "update"].
Proof.
  destruct (well_typed_steps _ _ _ _ _ Hexec) as [Hc Hw].
  pose proof Hw as [Hm Hr].
  repeat split; auto.
  - now apply well_typed_one_active.
  - now apply (well_typed_step m ev Hc Hw).
  - now apply (well_typed_step m ev Hc Hw).
Qed.

Lemma modes_stay_in_their_types_witness :
  let evs := [ClickMode "signin"; ClickForgotPassword] in
  let m := step (step (mount plainLocation None 0) (ClickMode "signin"))
             ClickForgotPassword in
  steps (mount plainLocation None 0) evs = Some m
  /\ enabled m ClickBackToSignIn = true
  /\ In (mode (ui m)) ["signup"; "signin"]
  /\ In (resetMode (ui m)) ["none"; "request"; "update"]
  /\ activeResetModes (ui m) = 1
  /\ In (resetMode (ui (step m ClickBackToSignIn)))
       ["none"; "request"; "update"].
Proof.
  intros evs m.
  assert (Hexec : steps (mount plainLocation None 0) evs = Some m)
    by reflexivity.
  destruct (modes_stay_in_their_types plainLocation None 0 evs m Hexec)
    as (Hm & Hr & Hone & Hnext).
  assert (He : enabled m ClickBackToSignIn = true) by reflexivity.
  destruct (Hnext ClickBackToSignIn He) as [_ Hr'].
  exact (conj Hexec (conj He (conj Hm (conj Hr (conj Hone Hr'))))).
Defined.

(** ** The reset mode *)

Lemma setters_handleFormSubmit (o : string) (st : State) :
  setters (handleFormSubmit o st) = []
  \/ setters (handleFormSubmit o st) =
       [setStatus "New password must be at least 6 characters."]
  \/ setters (handleFormSubmit o st) = [setStatus "Passwords do not match."].
Proof.
  unfold handleFormSubmit, handlePasswordResetRequest, handlePasswordUpdate,
    handleSubmit.
  destruct (isResetRequest st); [now left |].
  destruct (isPasswordUpdate st).
  - destruct (String.length (newPassword st) <? 6); [now right; left |].
    destruct (negb (newPassword st =? confirmPassword st)%string);
      [now right; right | now left].
  - destruct (mode st =? "signup")%string; now left.
Qed.

Lemma resetMode_step (m : Machine) (ev : Event) :
  canonical m -> enabled m ev = true ->
  let a := resetMode (ui m) in
  let b := resetMode (ui (step m ev)) in
  b = a \/ b = "none"
  \/ (a = "none" /\ b = "request" /\ ev = ClickForgotPassword)
  \/ (b = "update"
      /\ exists session, ev = AuthStateChange "PASSWORD_RECOVERY" session).
Proof.
  intros Hc He a b. subst a b. rewrite step_ui.
  destruct (mounted m); [| now left].
  destruct ev as [ | | | | o | v | v | v | v | e s | i r | c | ];
    unfold task_of; try (simpl; now auto).
  - destruct (setters_handleFormSubmit (windowOrigin m) (ui m))
      as [-> | [-> | ->]]; simpl; auto.
  - right; right; left. unfold enabled in He.
    apply andb_prop in He as [He _]. apply andb_prop in He as [_ He].
    unfold isResetNone in He. apply String.eqb_eq in He. auto.
  - unfold authListener. simpl.
    destruct (e =? "PASSWORD_RECOVERY")%string eqn:E; simpl; auto.
    apply String.eqb_eq in E; subst e. right; right; right. eauto.
  - destruct (nth_error (pending m) i) eqn:E; [| simpl; now auto].
    rewrite (canonical_lookup m i p Hc E).
    destruct (call p), r as [[err |]]; simpl; auto.
Qed.

Lemma resetMode_mount (window : Location) (user : option User) (client : nat) :
  resetMode (ui (mount window user client)) =
  if hasRecoveryParams (Some window) then "update" else "none".
Proof.
  unfold mount. rewrite run_ui.
  unfold recoveryEffect, subscribe, initialState. cbn [mounted ui].
  destruct (hasRecoveryParams (Some window)); reflexivity.
Qed.

(** C1, as the code has it.  The reset mode starts at "none", or at
    "update" when the page was opened from a recovery link.  Every step
    then leaves it alone, returns it to "none", takes it from "none" to
    "request" (the "Forgot password?" button), or sets it to "update"
    (a PASSWORD_RECOVERY event, whatever the mode was); no step takes it
    from "update" to "request". *)
Theorem reset_mode_moves
  (window : Location) (user : option User) (client : nat)
  (evs : list Event) (m : Machine) (ev : Event)
  (Hexec : steps (mount window user client) evs = Some m)
  (Hen : enabled m ev = true) :
  let a := resetMode (ui m) in
  let b := resetMode (ui (step m ev)) in
  resetMode (ui (mount window user client)) =
    (if hasRecoveryParams (Some window) then "update" else "none")
  /\ (b = a \/ b = "none"
      \/ (a = "none" /\ b = "request" /\ ev = ClickForgotPassword)
      \/ (b = "update"
          /\ exists session,
               ev = AuthStateChange "PASSWORD_RECOVERY" session))
  /\ ~ (a = "update" /\ b = "request").
Proof.
  intros a b. split; [apply resetMode_mount |].
  pose proof (resetMode_step m ev (canonical_steps _ _ _ _ _ Hexec) Hen) as H.
  fold a b in H. cbv zeta in H. split; [exact H |].
  intros [Ha Hb].
  destruct H as [H | [H | [(H & _) | (H & _)]]]; congruence.
Qed.

Lemma reset_mode_moves_witness :
  let evs := [ClickMode "signin"; ClickForgotPassword] in
  let m := step (step (mount plainLocation None 0) (ClickMode "signin"))
             ClickForgotPassword in
  let ev := AuthStateChange "PASSWORD_RECOVERY" (Some aliceSession) in
  steps (mount plainLocation None 0) evs = Some m
  /\ enabled m ev = true
  /\ resetMode (ui (mount plainLocation None 0)) = "none"
  /\ ~ (resetMode (ui m) = "update"
        /\ resetMode (ui (step m ev)) = "request").
Proof.
  intros evs m ev.
  assert (Hexec : steps (mount plainLocation None 0) evs = Some m)
    by reflexivity.
  assert (Hen : enabled m ev = true) by reflexivity.
  destruct (reset_mode_moves plainLocation None 0 evs m ev Hexec Hen)
    as (H0 & _ & Hno).
  exact (conj Hexec (conj Hen (conj H0 Hno))).
Defined.

(** C1 as the claim words it fails: with the reset-request form open, a
    PASSWORD_RECOVERY event takes the reset mode from "request" straight to
    "update"; and a page opened from a recovery link starts at "update". *)
Lemma reset_mode_leaves_the_cycles :
  let m := step (step (mount plainLocation None 0) (ClickMode "signin"))
             ClickForgotPassword in
  let ev := AuthStateChange "PASSWORD_RECOVERY" (Some aliceSession) in
  steps (mount plainLocation None 0) [ClickMode "signin"; ClickForgotPassword]
    = Some m
  /\ enabled m ev = true
  /\ resetMode (ui m) = "request"
  /\ resetMode (ui (step m ev)) = "update"
  /\ ~ cycle_step (resetMode (ui m)) (resetMode (ui (step m ev)))
  /\ resetMode (ui (mount resetLinkLocation None 0)) = "update".
Proof.
  intros m ev. repeat split; try reflexivity.
  change (~ cycle_step "request" "update").
  intros [H | [[H _] | [[_ H] | [[H _] | [H _]]]]]; discriminate H.
Qed.

(** ** What a step asks of the SDK *)

Lemma cleanup_log (m : Machine) :
  log (cleanup m) = (log m ++ unsubscribed m)%list.
Proof.
  unfold cleanup, unsubscribed.
  destruct (subscription m); simpl; [reflexivity | now rewrite app_nil_r].
Qed.

Lemma step_log (m : Machine) (ev : Event) :
  log (step m ev) =
  (log m ++ map (fun p => Call (call p)) (awaited (task_of m ev))
     ++ lifecycle_ops m ev)%list.
Proof.
  destruct ev as [ | | | | o | v | v | v | v | e s | i r | c | ];
    unfold step, task_of, lifecycle_ops;
    try (rewrite (app_nil_r (map _ _)); now apply run_log).
  - rewrite (app_nil_r (map _ _)). destruct (nth_error (pending m) i);
      [exact (run_log _ (settle i m)) | simpl; now rewrite app_nil_r].
  - simpl. destruct (Nat.eqb c (supabase m)); simpl.
    + now rewrite app_nil_r.
    + rewrite cleanup_log. now rewrite app_assoc.
  - simpl. apply cleanup_log.
Qed.

(** ** Errors of the SDK *)

Lemma resolve_error (m : Machine) (i : nat) (p : Pending) (e : AuthError) :
  canonical m -> mounted m = true ->
  nth_error (pending m) i = Some p ->
  In (call_name (call p)) checkedCalls ->
  setters (task_of m (Resolve i (failed e))) = [setStatus (message e)]
  /\ awaited (task_of m (Resolve i (failed e))) = [].
Proof.
  intros Hc Hm Hp Hin. unfold task_of. rewrite Hp.
  rewrite (canonical_lookup m i p Hc Hp).
  destruct (call p); simpl in Hin; auto.
  repeat destruct Hin as [Hin | Hin]; try discriminate Hin; contradiction.
Qed.

(** C2.  When one of the calls signUp, signInWithPassword,
    resetPasswordForEmail and updateUser comes back with an error, the
    handler that awaits it sets the status to exactly the error's message
    and changes no other state cell; it makes no further request of the SDK
    (no retry), and the call is no longer in flight. *)
Theorem sdk_error_becomes_status
  (window : Location) (user : option User) (client : nat)
  (evs : list Event) (m : Machine)
  (i : nat) (p : Pending) (e : AuthError)
  (Hexec : steps (mount window user client) evs = Some m)
  (Hmounted : mounted m = true)
  (Hflight : nth_error (pending m) i = Some p)
  (Hcall : In (call_name (call p)) checkedCalls) :
  let m' := step m (Resolve i (failed e)) in
  status (ui m') = message e
  /\ ui m' = apply_setter (setStatus (message e)) (ui m)
  /\ log m' = log m
  /\ pending m' = remove_nth i (pending m).
Proof.
  intros m'. subst m'.
  pose proof (canonical_steps _ _ _ _ _ Hexec) as Hc.
  destruct (resolve_error m i p e Hc Hmounted Hflight Hcall) as [Hs Ha].
  rewrite step_ui, step_log, step_pending, Hs, Ha, Hmounted.
  simpl. rewrite !app_nil_r. auto.
Qed.

Lemma sdk_error_becomes_status_witness :
  let evs := [ChangeEmail "alice@demo.test"; ChangePassword "secret1";
              SubmitForm] in
  let m := step (step (step (mount plainLocation None 0)
                         (ChangeEmail "alice@demo.test"))
                   (ChangePassword "secret1")) SubmitForm in
  let p := mkPending
             (signUp "alice@demo.test" "secret1" "https://demo.test/welcome")
             afterSignUp in
  steps (mount plainLocation None 0) evs = Some m
  /\ mounted m = true
  /\ nth_error (pending m) 0 = Some p
  /\ In (call_name (call p)) checkedCalls
  /\ status (ui (step m (Resolve 0 (failed rateLimited))))
     = "Email rate limit exceeded"
  /\ log (step m (Resolve 0 (failed rateLimited))) = log m.
Proof.
  intros evs m p.
  assert (Hexec : steps (mount plainLocation None 0) evs = Some m)
    by reflexivity.
  assert (Hmounted : mounted m = true) by reflexivity.
  assert (Hflight : nth_error (pending m) 0 = Some p) by reflexivity.
  assert (Hcall : In (call_name (call p)) checkedCalls) by (simpl; auto).
  destruct (sdk_error_becomes_status plainLocation None 0 evs m 0 p
              rateLimited Hexec Hmounted Hflight Hcall) as (Hs & _ & Hl & _).
  exact (conj Hexec (conj Hmounted (conj Hflight (conj Hcall (conj Hs Hl))))).
Defined.

(** ** Signing out *)

Lemma step_subscription (m : Machine) (ev : Event) :
  subscription (step m ev) =
  match ev with
  | Render c =>
      if Nat.eqb c (supabase m) then subscription m
      else Some (length (log m ++ unsubscribed m)%list)
  | Unmount => None
  | _ => subscription m
  end.
Proof.
  destruct ev as [ | | | | o | v | v | v | v | e s | i r | c | ];
    unfold step; try apply run_subscription.
  - destruct (nth_error (pending m) i);
      [exact (run_subscription _ (settle i m)) | reflexivity].
  - destruct (Nat.eqb c (supabase m)); simpl; [reflexivity |].
    now rewrite cleanup_log.
  - unfold teardown, cleanup. destruct (subscription m) eqn:E; simpl; auto.
Qed.

Lemma subscribed_mounted window user client evs m :
  steps (mount window user client) evs = Some m ->
  mounted m = false -> subscription m = None.
Proof.
  apply (steps_invariant (fun m => mounted m = false -> subscription m = None)).
  - intros m0 ev IH He. rewrite step_mounted, step_subscription.
    destruct ev as [ | | | | o | v | v | v | v | e s | i r | c | ]; auto.
    intros Hm. simpl in He. congruence.
  - unfold mount. rewrite run_mounted. simpl. discriminate.
Qed.

Lemma resolve_sign_out (m : Machine) (i : nat) (p : Pending) (r : SdkResult) :
  canonical m -> nth_error (pending m) i = Some p -> call p = signOut ->
  task_of m (Resolve i r) = afterSignOut r.
Proof.
  intros Hc Hp Hcall. unfold task_of. rewrite Hp.
  now rewrite (canonical_lookup m i p Hc Hp), Hcall.
Qed.

(** C10, as the code has it.  The code after [await supabase.auth.signOut()]
    does not read what the promise resolved to: for every resolved value,
    one that carries an error included, it sets the current user to null,
    the status to "Signed out successfully" and the reset mode to "none",
    and clears the new-password and confirm-password fields.  When the
    promise rejects instead, the handler ends at the await and no state
    cell changes.  Either way nothing more is asked of the SDK and the call
    is no longer in flight. *)
Theorem sign_out_ignores_resolved_value
  (window : Location) (user : option User) (client : nat)
  (evs : list Event) (m : Machine)
  (i : nat) (p : Pending) (o : Outcome)
  (Hexec : steps (mount window user client) evs = Some m)
  (Hmounted : mounted m = true)
  (Hflight : nth_error (pending m) i = Some p)
  (Hcall : call p = signOut) :
  let st := ui (answer m i o) in
  match o with
  | Resolved _ =>
      currentUser st = None
      /\ status st = "Signed out successfully"
      /\ resetMode st = "none"
      /\ newPassword st = ""
      /\ confirmPassword st = ""
      /\ st = signedOut (ui m)
  | Rejected => st = ui m
  end
  /\ log (answer m i o) = log m
  /\ pending (answer m i o) = remove_nth i (pending m).
Proof.
  intros st. subst st.
  pose proof (canonical_steps _ _ _ _ _ Hexec) as Hc.
  destruct o as [r |]; unfold answer.
  - rewrite step_ui, step_log, step_pending, Hmounted,
      (resolve_sign_out m i p r Hc Hflight Hcall).
    simpl. rewrite !app_nil_r. repeat split; reflexivity.
  - repeat split; reflexivity.
Qed.

Lemma sign_out_ignores_resolved_value_witness :
  let evs := [ClickSignOut] in
  let m := step (mount plainLocation (Some alice) 0) ClickSignOut in
  let p := mkPending signOut afterSignOut in
  let o := Resolved (failed rateLimited) in
  steps (mount plainLocation (Some alice) 0) evs = Some m
  /\ mounted m = true
  /\ nth_error (pending m) 0 = Some p
  /\ call p = signOut
  /\ currentUser (ui m) = Some alice
  /\ currentUser (ui (answer m 0 o)) = None
  /\ status (ui (answer m 0 o)) = "Signed out successfully".
Proof.
  intros evs m p o.
  assert (Hexec : steps (mount plainLocation (Some alice) 0) evs = Some m)
    by reflexivity.
  assert (Hmounted : mounted m = true) by reflexivity.
  assert (Hflight : nth_error (pending m) 0 = Some p) by reflexivity.
  assert (Hcall : call p = signOut) by reflexivity.
  destruct (sign_out_ignores_resolved_value plainLocation (Some alice) 0 evs m
              0 p o Hexec Hmounted Hflight Hcall) as ((Hu & Hs & _) & _).
  exact (conj Hexec (conj Hmounted (conj Hflight (conj Hcall
           (conj eq_refl (conj Hu Hs)))))).
Defined.

(** C10 as the claim words it fails: a rejected promise is an outcome of
    the signOut call too, and after it the user is still the current user
    and the status is not "Signed out successfully". *)
Lemma rejected_sign_out_changes_nothing :
  let m := step (mount plainLocation (Some alice) 0) ClickSignOut in
  steps (mount plainLocation (Some alice) 0) [ClickSignOut] = Some m
  /\ nth_error (pending m) 0 = Some (mkPending signOut afterSignOut)
  /\ currentUser (ui (answer m 0 Rejected)) = Some alice
  /\ currentUser (ui (answer m 0 Rejected)) <> None
  /\ status (ui (answer m 0 Rejected)) <> "Signed out successfully".
Proof.
  intros m. repeat split; try reflexivity; intros H; discriminate H.
Qed.

(** ** The current user *)

Lemma currentUser_step (m : Machine) (ev : Event) :
  canonical m -> mounted m = true ->
  match ev with
  | AuthStateChange _ s =>
      currentUser (ui (step m ev)) = option_map session_user s
  | Resolve i _ =>
      match nth_error (pending m) i with
      | Some p =>
          match call p with
          | signOut => currentUser (ui (step m ev)) = None
          | _ => currentUser (ui (step m ev)) = currentUser (ui m)
          end
      | None => currentUser (ui (step m ev)) = currentUser (ui m)
      end
  | _ => currentUser (ui (step m ev)) = currentUser (ui m)
  end.
Proof.
  intros Hc Hm. rewrite step_ui, Hm.
  destruct ev as [ | | | | o | v | v | v | v | e s | i r | c | ];
    unfold task_of; try reflexivity.
  - destruct (setters_handleFormSubmit (windowOrigin m) (ui m))
      as [-> | [-> | ->]]; reflexivity.
  - unfold authListener. simpl.
    destruct (e =? "PASSWORD_RECOVERY")%string; reflexivity.
  - destruct (nth_error (pending m) i) eqn:E; [| reflexivity].
    rewrite (canonical_lookup m i p Hc E).
    destruct (call p), r as [[err |]]; reflexivity.
Qed.

(** What changes the current user: it starts as the [user] prop, every
    auth-state-change event sets it to the user of the event's session (or
    to null without one), and the only other step that changes it is the
    resolution of a sign-out, which sets it to null. *)
Lemma currentUser_changes
  (window : Location) (user : option User) (client : nat)
  (evs : list Event) (m : Machine) (ev : Event)
  (Hexec : steps (mount window user client) evs = Some m)
  (Hen : enabled m ev = true) :
  currentUser (ui (mount window user client)) = user
  /\ (forall e s, ev = AuthStateChange e s ->
        currentUser (ui (step m ev)) = option_map session_user s)
  /\ (currentUser (ui (step m ev)) = currentUser (ui m)
      \/ (exists e s, ev = AuthStateChange e s)
      \/ (exists i r p,
            ev = Resolve i r /\ nth_error (pending m) i = Some p
            /\ call p = signOut /\ currentUser (ui (step m ev)) = None)).
Proof.
  pose proof (canonical_steps _ _ _ _ _ Hexec) as Hc.
  split; [| split].
  - unfold mount. rewrite run_ui.
    unfold recoveryEffect, subscribe, initialState. cbn [mounted ui].
    destruct (hasRecoveryParams (Some window)); reflexivity.
  - intros e s ->. simpl in Hen.
    destruct (mounted m) eqn:Hm.
    + exact (currentUser_step m (AuthStateChange e s) Hc Hm).
    + rewrite (subscribed_mounted _ _ _ _ _ Hexec Hm) in Hen. discriminate.
  - destruct (mounted m) eqn:Hm;
      [| left; now rewrite step_ui, Hm].
    pose proof (currentUser_step m ev Hc Hm) as H.
    destruct ev as [ | | | | o | v | v | v | v | e s | i r | c | ]; auto.
    + right; left; eauto.
    + destruct (nth_error (pending m) i) eqn:E; auto.
      destruct (call p) eqn:Ecall; auto.
      right; right. exists i, r, p. auto.
Qed.

(** C6, where the code departs from it.  The listener does mirror the
    service: every auth-state-change event sets the current user to the
    user of the event's session, or to null without one.  But the handler
    of "Sign out" never looks at [error], as its sibling handlers do: when
    the service refuses the sign-out and the call resolves with an error,
    the current user is set to null and the status to "Signed out
    successfully" all the same, in one step that is no auth event and
    asks nothing of the SDK. *)
Theorem refused_sign_out_clears_the_user
  (window : Location) (user : option User) (client : nat)
  (evs : list Event) (m : Machine)
  (i : nat) (p : Pending) (e : AuthError)
  (Hexec : steps (mount window user client) evs = Some m)
  (Hmounted : mounted m = true)
  (Hflight : nth_error (pending m) i = Some p)
  (Hcall : call p = signOut) :
  let m' := step m (Resolve i (failed e)) in
  enabled m (Resolve i (failed e)) = true
  /\ currentUser (ui m') = None
  /\ status (ui m') = "Signed out successfully"
  /\ log m' = log m
  /\ (forall event session,
        enabled m (AuthStateChange event session) = true ->
        currentUser (ui (step m (AuthStateChange event session)))
        = option_map session_user session).
Proof.
  intros m'. subst m'.
  pose proof (canonical_steps _ _ _ _ _ Hexec) as Hc.
  split; [| split; [| split; [| split]]].
  - unfold enabled. apply Nat.ltb_lt. apply nth_error_Some. congruence.
  - rewrite step_ui, Hmounted,
      (resolve_sign_out m i p (failed e) Hc Hflight Hcall). reflexivity.
  - rewrite step_ui, Hmounted,
      (resolve_sign_out m i p (failed e) Hc Hflight Hcall). reflexivity.
  - rewrite step_log, (resolve_sign_out m i p (failed e) Hc Hflight Hcall).
    simpl. now rewrite app_nil_r.
  - intros event session _.
    exact (currentUser_step m (AuthStateChange event session) Hc Hmounted).
Qed.

Lemma refused_sign_out_clears_the_user_witness :
  let evs := [ClickSignOut] in
  let m := step (mount plainLocation (Some alice) 0) ClickSignOut in
  let p := mkPending signOut afterSignOut in
  let m' := step m (Resolve 0 (failed rateLimited)) in
  steps (mount plainLocation (Some alice) 0) evs = Some m
  /\ mounted m = true
  /\ nth_error (pending m) 0 = Some p
  /\ call p = signOut
  /\ currentUser (ui m) = Some alice
  /\ currentUser (ui m') = None
  /\ status (ui m') = "Signed out successfully".
Proof.
  intros evs m p m'.
  assert (Hexec : steps (mount plainLocation (Some alice) 0) evs = Some m)
    by reflexivity.
  assert (Hmounted : mounted m = true) by reflexivity.
  assert (Hflight : nth_error (pending m) 0 = Some p) by reflexivity.
  assert (Hcall : call p = signOut) by reflexivity.
  destruct (refused_sign_out_clears_the_user plainLocation (Some alice) 0 evs
              m 0 p rateLimited Hexec Hmounted Hflight Hcall)
    as (_ & Hu & Hs & _).
  exact (conj Hexec (conj Hmounted (conj Hflight (conj Hcall
           (conj eq_refl (conj Hu Hs)))))).
Defined.

(** ** The text fields *)

Lemma textFields_resolve (m : Machine) (i : nat) (p : Pending) (r : SdkResult) :
  canonical m -> mounted m = true -> nth_error (pending m) i = Some p ->
  let st := ui m in
  let st' := ui (step m (Resolve i r)) in
  match call p with
  | resetPasswordForEmail _ _ => textFields st' = textFields st
  | updateUser _ =>
      error r = None -> textFields st' = (email st, password st, "", "")
  | signOut => textFields st' = (email st, password st, "", "")
  | _ => textFields st' = textFields st
  end.
Proof.
  intros Hc Hm Hp st st'. subst st st'. rewrite step_ui, Hm.
  unfold task_of. rewrite Hp, (canonical_lookup m i p Hc Hp).
  destruct (call p), r as [[err |]]; simpl; try reflexivity; discriminate.
Qed.

(** C3, as the code has it.  A transition clears only some of the four
    text fields: "Forgot password?" clears the password; "Back to sign in"
    clears the password, the new password and its confirmation; a completed
    password update and a completed sign-out clear the new password and its
    confirmation; the sign-up / sign-in switch, a completed reset request
    and a PASSWORD_RECOVERY event clear nothing.  None of them touches the
    email field. *)
Theorem transitions_clear_some_fields
  (window : Location) (user : option User) (client : nat)
  (evs : list Event) (m : Machine)
  (Hexec : steps (mount window user client) evs = Some m)
  (Hmounted : mounted m = true) :
  let st := ui m in
  (forall o, textFields (ui (step m (ClickMode o))) = textFields st)
  /\ textFields (ui (step m ClickForgotPassword))
     = (email st, "", newPassword st, confirmPassword st)
  /\ textFields (ui (step m ClickBackToSignIn)) = (email st, "", "", "")
  /\ (forall e s,
        textFields (ui (step m (AuthStateChange e s))) = textFields st)
  /\ (forall i p r, nth_error (pending m) i = Some p ->
        let st' := ui (step m (Resolve i r)) in
        match call p with
        | resetPasswordForEmail _ _ => textFields st' = textFields st
        | updateUser _ =>
            error r = None ->
            textFields st' = (email st, password st, "", "")
        | signOut => textFields st' = (email st, password st, "", "")
        | _ => textFields st' = textFields st
        end).
Proof.
  intros st. subst st.
  pose proof (canonical_steps _ _ _ _ _ Hexec) as Hc.
  split; [| split; [| split; [| split]]].
  - intros o. now rewrite step_ui, Hmounted.
  - now rewrite step_ui, Hmounted.
  - now rewrite step_ui, Hmounted.
  - intros e s. rewrite step_ui, Hmounted. unfold task_of, authListener.
    simpl. destruct (e =? "PASSWORD_RECOVERY")%string; reflexivity.
  - intros i p r Hp. exact (textFields_resolve m i p r Hc Hmounted Hp).
Qed.

Lemma transitions_clear_some_fields_witness :
  let evs := [ClickMode "signin"; ChangeEmail "alice@demo.test";
              ChangePassword "secret1"] in
  let m := step (step (step (mount plainLocation None 0) (ClickMode "signin"))
                   (ChangeEmail "alice@demo.test")) (ChangePassword "secret1") in
  steps (mount plainLocation None 0) evs = Some m
  /\ mounted m = true
  /\ textFields (ui m) = ("alice@demo.test", "secret1", "", "")
  /\ textFields (ui (step m ClickForgotPassword))
     = ("alice@demo.test", "", "", "").
Proof.
  intros evs m.
  assert (Hexec : steps (mount plainLocation None 0) evs = Some m)
    by reflexivity.
  assert (Hmounted : mounted m = true) by reflexivity.
  destruct (transitions_clear_some_fields plainLocation None 0 evs m
              Hexec Hmounted) as (_ & Hforgot & _).
  exact (conj Hexec (conj Hmounted (conj eq_refl Hforgot))).
Defined.

(** C3 as the claim words it fails: switching from sign-up to sign-in is a
    transition, and it leaves a typed email and password in their fields. *)
Lemma mode_switch_keeps_the_fields :
  let m := step (step (mount plainLocation None 0)
                   (ChangeEmail "alice@demo.test")) (ChangePassword "secret1") in
  let ev := ClickMode "signin" in
  steps (mount plainLocation None 0)
    [ChangeEmail "alice@demo.test"; ChangePassword "secret1"] = Some m
  /\ enabled m ev = true
  /\ mode (ui m) = "signup"
  /\ mode (ui (step m ev)) = "signin"
  /\ email (ui (step m ev)) = "alice@demo.test"
  /\ password (ui (step m ev)) = "secret1"
  /\ textFields (ui (step m ev)) <> ("", "", "", "").
Proof.
  intros m ev. repeat split; try reflexivity.
  intros H. discriminate H.
Qed.

(** ** Validation before the password update *)

(** C9.  With the password-update form open, a submit calls the SDK's
    updateUser only when the new password has at least 6 characters and
    equals its confirmation.  Otherwise nothing is asked of the SDK, the
    status becomes the validation message of the first check that failed,
    and every other state cell keeps its value. *)
Theorem password_update_validates_first
  (m : Machine)
  (Hmounted : mounted m = true)
  (Hupdate : resetMode (ui m) = "update") :
  let st := ui m in
  let m' := step m SubmitForm in
  (String.length (newPassword st) < 6 ->
     m' = with_ui (apply_setter
            (setStatus "New password must be at least 6 characters.")) m
     /\ log m' = log m /\ pending m' = pending m)
  /\ (6 <= String.length (newPassword st) ->
      newPassword st <> confirmPassword st ->
      m' = with_ui (apply_setter (setStatus "Passwords do not match.")) m
      /\ log m' = log m /\ pending m' = pending m)
  /\ (6 <= String.length (newPassword st) ->
      newPassword st = confirmPassword st ->
      ui m' = st
      /\ log m' = (log m ++ [Call (updateUser (newPassword st))])%list)
  /\ (log m' <> log m ->
      6 <= String.length (newPassword st)
      /\ newPassword st = confirmPassword st).
Proof.
  intros st m'. subst st m'.
  unfold step, handleFormSubmit, isResetRequest, isPasswordUpdate.
  rewrite Hupdate. cbn [String.eqb Ascii.eqb Bool.eqb].
  unfold handlePasswordUpdate.
  destruct (String.length (newPassword (ui m)) <? 6) eqn:Elen.
  - apply Nat.ltb_lt in Elen.
    cbn [run]. unfold dispatch. rewrite Hmounted.
    split; [| split; [| split]].
    + intros _. repeat split; reflexivity.
    + intros Hge. lia.
    + intros Hge. lia.
    + intros Hlog. now elim Hlog.
  - apply Nat.ltb_ge in Elen.
    destruct (newPassword (ui m) =? confirmPassword (ui m))%string eqn:Eeq;
      cbn [negb].
    + apply String.eqb_eq in Eeq. cbn [run].
      split; [| split; [| split]].
      * intros Hlt. lia.
      * intros _ Hneq. now elim Hneq.
      * intros _ _. split; reflexivity.
      * intros _. split; assumption.
    + apply String.eqb_neq in Eeq.
      cbn [run]. unfold dispatch. rewrite Hmounted.
      split; [| split; [| split]].
      * intros Hlt. lia.
      * intros _ _. repeat split; reflexivity.
      * intros _ Heq. now elim Eeq.
      * intros Hlog. now elim Hlog.
Qed.

Lemma password_update_validates_first_witness :
  let m := step (step (mount resetLinkLocation None 0)
                   (ChangeNewPassword "secret1"))
             (ChangeConfirmPassword "secret2") in
  mounted m = true
  /\ resetMode (ui m) = "update"
  /\ 6 <= String.length (newPassword (ui m))
  /\ newPassword (ui m) <> confirmPassword (ui m)
  /\ step m SubmitForm
     = with_ui (apply_setter (setStatus "Passwords do not match.")) m
  /\ log (step m SubmitForm) = log m.
Proof.
  intros m.
  assert (Hmounted : mounted m = true) by reflexivity.
  assert (Hupdate : resetMode (ui m) = "update") by reflexivity.
  assert (Hlen : 6 <= String.length (newPassword (ui m))) by (simpl; lia).
  assert (Hneq : newPassword (ui m) <> confirmPassword (ui m))
    by (intros H; discriminate H).
  destruct (password_update_validates_first m Hmounted Hupdate)
    as (_ & Hmismatch & _).
  destruct (Hmismatch Hlen Hneq) as (Hm' & Hlog & _).
  exact (conj Hmounted (conj Hupdate (conj Hlen (conj Hneq (conj Hm' Hlog))))).
Defined.

(** ** Initialisation *)

Lemma strict_eq_spec (x : option string) (literal : string) :
  strict_eq x literal = true <-> x = Some literal.
Proof.
  destruct x as [v |]; simpl.
  - rewrite String.eqb_eq. split; congruence.
  - split; discriminate.
Qed.

Lemma hasRecoveryParams_spec (location : Location) :
  hasRecoveryParams (Some location) = true <-> recoveryRedirect location.
Proof.
  unfold hasRecoveryParams, recoveryRedirect.
  rewrite <- !strict_eq_spec.
  destruct (strict_eq _ "recovery"); [tauto |].
  split; [now right | now intros [H | H]].
Qed.

(** C5.  The state the component is initialised with has reset mode
    "update" and the status "Enter a new password to finish resetting your
    account." exactly when there is a window whose location indicates a
    recovery redirect (hash parameter "type" equal to "recovery", or query
    parameter "password-reset" equal to "true"); in every other case the
    reset mode is "none" and the status is empty.  The effects run at mount
    leave that state as it is. *)
Theorem initial_reset_mode_follows_url
  (window : option Location) (user : option User) :
  let st := initialState window user in
  let recovery :=
    exists location, window = Some location /\ recoveryRedirect location in
  ((resetMode st = "update" /\ status st = recoveryStatus) <-> recovery)
  /\ (~ recovery -> resetMode st = "none" /\ status st = "")
  /\ (forall location client,
        window = Some location ->
        ui (mount location user client) = st).
Proof.
  intros st recovery. subst st recovery.
  assert (Hspec : hasRecoveryParams window = true <->
                  exists location,
                    window = Some location /\ recoveryRedirect location).
  { destruct window as [location |].
    - rewrite hasRecoveryParams_spec. split.
      + intros H. now exists location.
      + intros (l & Hl & H). now inversion Hl; subst.
    - simpl. split; [discriminate | intros (l & Hl & _); discriminate]. }
  split; [| split].
  - rewrite <- Hspec. unfold initialState. cbn [resetMode status].
    destruct (hasRecoveryParams window); split; auto; try discriminate;
      intros [H _]; discriminate H.
  - rewrite <- Hspec. unfold initialState. cbn [resetMode status].
    destruct (hasRecoveryParams window); [intros H; now elim H | auto].
  - intros location client ->. unfold mount. rewrite run_ui.
    unfold recoveryEffect, subscribe, initialState. cbn [mounted ui].
    destruct (hasRecoveryParams (Some location)); reflexivity.
Qed.

Lemma initial_reset_mode_follows_url_witness :
  (exists location,
     Some recoveryHashLocation = Some location /\ recoveryRedirect location)
  /\ resetMode (initialState (Some recoveryHashLocation) None) = "update"
  /\ status (initialState (Some recoveryHashLocation) None)
     = "Enter a new password to finish resetting your account."
  /\ ~ (exists location,
          Some plainLocation = Some location /\ recoveryRedirect location)
  /\ resetMode (initialState (Some plainLocation) None) = "none"
  /\ status (initialState (Some plainLocation) None) = "".
Proof.
  assert (Hyes : exists location,
             Some recoveryHashLocation = Some location
             /\ recoveryRedirect location).
  { exists recoveryHashLocation. split; [reflexivity | left; reflexivity]. }
  assert (Hno : ~ (exists location,
             Some plainLocation = Some location
             /\ recoveryRedirect location)).
  { intros (l & Hl & [H | H]); inversion Hl; subst l; discriminate H. }
  pose proof (initial_reset_mode_follows_url (Some recoveryHashLocation) None)
    as Hrecovery.
  cbv zeta in Hrecovery. destruct Hrecovery as ((_ & Hback) & _ & _).
  destruct (Hback Hyes) as (Hr & Hs).
  pose proof (initial_reset_mode_follows_url (Some plainLocation) None)
    as Hplain.
  cbv zeta in Hplain. destruct Hplain as (_ & Hplain & _).
  destruct (Hplain Hno) as (Hr' & Hs').
  exact (conj Hyes (conj Hr (conj Hs (conj Hno (conj Hr' Hs'))))).
Defined.

(** ** The requests made of the SDK *)

Lemma op_name_component (o : SdkOp) : In (op_name o) componentOps.
Proof. destruct o as [[] | |]; simpl; tauto. Qed.

Lemma task_of_issued (m : Machine) (ev : Event) :
  canonical m ->
  Forall (issued (windowOrigin m))
    (map (fun p => Call (call p)) (awaited (task_of m ev))).
Proof.
  intros Hc.
  destruct ev as [ | | | | o | v | v | v | v | e s | i r | c | ];
    unfold task_of; try (simpl; now repeat constructor).
  - unfold handleFormSubmit, handlePasswordResetRequest, handlePasswordUpdate,
      handleSubmit.
    destruct (isResetRequest (ui m)); [simpl; now repeat constructor |].
    destruct (isPasswordUpdate (ui m)).
    + destruct (String.length (newPassword (ui m)) <? 6) eqn:Elen;
        [constructor |].
      apply Nat.ltb_ge in Elen.
      destruct (negb (newPassword (ui m) =? confirmPassword (ui m))%string);
        simpl; repeat constructor. exact Elen.
    + destruct (mode (ui m) =? "signup")%string; simpl; now repeat constructor.
  - unfold authListener. simpl.
    destruct (e =? "PASSWORD_RECOVERY")%string; constructor.
  - destruct (nth_error (pending m) i) eqn:E; [| constructor].
    rewrite (canonical_lookup m i p Hc E), kont_awaited. constructor.
Qed.

Lemma lifecycle_ops_issued (origin : string) (m : Machine) (ev : Event) :
  Forall (issued origin) (lifecycle_ops m ev).
Proof.
  destruct ev as [ | | | | o | v | v | v | v | e s | i r | c | ];
    unfold lifecycle_ops, unsubscribed; try constructor.
  - destruct (Nat.eqb c (supabase m)); [constructor |].
    destruct (subscription m); simpl; repeat constructor.
  - destruct (subscription m); repeat constructor.
Qed.

Lemma log_issued window user client evs m :
  steps (mount window user client) evs = Some m ->
  canonical m /\ windowOrigin m = origin window
  /\ Forall (issued (origin window)) (log m).
Proof.
  apply (steps_invariant
           (fun m => canonical m /\ windowOrigin m = origin window
                     /\ Forall (issued (origin window)) (log m))).
  - intros m0 ev (Hc & Ho & Hl) _. split; [now apply canonical_step |].
    split; [now rewrite step_windowOrigin |].
    rewrite step_log. apply Forall_app; split; [exact Hl |].
    apply Forall_app; split.
    + rewrite <- Ho. now apply task_of_issued.
    + apply lifecycle_ops_issued.
  - split; [apply canonical_mount |]. unfold mount.
    rewrite run_windowOrigin, run_log. split; [reflexivity |].
    unfold recoveryEffect.
    destruct (negb (hasRecoveryParams (Some window)) || false); simpl;
      repeat constructor.
Qed.

(** C4, as the code has it.  Every request an execution makes of the SDK is
    one of the five calls signUp, signInWithPassword, resetPasswordForEmail,
    updateUser and signOut, built the way the handlers build them, or the
    onAuthStateChange subscription or its unsubscribe; and each of the five
    calls is made in some execution. *)
Theorem sdk_requests_of_the_component
  (window : Location) (user : option User) (client : nat)
  (evs : list Event) (m : Machine)
  (Hexec : steps (mount window user client) evs = Some m) :
  (forall o, In o (log m) ->
     In (op_name o) componentOps /\ issued (origin window) o)
  /\ (forall name, In name componentCalls ->
        exists evs' m' c,
          steps (mount plainLocation None 0) evs' = Some m'
          /\ In (Call c) (log m') /\ call_name c = name).
Proof.
  split.
  - intros o Ho. split; [apply op_name_component |].
    destruct (log_issued _ _ _ _ _ Hexec) as (_ & _ & Hl).
    rewrite Forall_forall in Hl. now apply Hl.
  - intros name Hname. simpl in Hname.
    destruct Hname as [<- | [<- | [<- | [<- | [<- | []]]]]].
    + exists [SubmitForm]. eexists. exists (signUp "" "" "https://demo.test/welcome").
      split; [reflexivity |]. split; [simpl; tauto | reflexivity].
    + exists [ClickMode "signin"; SubmitForm]. eexists. exists (signInWithPassword "" "").
      split; [reflexivity |]. split; [simpl; tauto | reflexivity].
    + exists [ClickMode "signin"; ClickForgotPassword; SubmitForm].
      eexists. exists (resetPasswordForEmail ""
               "https://demo.test/email-password?password-reset=true").
      split; [reflexivity |]. split; [simpl; tauto | reflexivity].
    + exists [AuthStateChange "PASSWORD_RECOVERY" None;
              ChangeNewPassword "secret1"; ChangeConfirmPassword "secret1";
              SubmitForm].
      eexists. exists (updateUser "secret1").
      split; [reflexivity |]. split; [simpl; tauto | reflexivity].
    + exists [AuthStateChange "SIGNED_IN" (Some aliceSession); ClickSignOut].
      eexists. exists signOut.
      split; [reflexivity |]. split; [simpl; tauto | reflexivity].
Qed.

Lemma sdk_requests_of_the_component_witness :
  let evs := [AuthStateChange "SIGNED_IN" (Some aliceSession); ClickSignOut;
              Unmount] in
  let m := step (step (step (mount plainLocation None 0)
                         (AuthStateChange "SIGNED_IN" (Some aliceSession)))
                   ClickSignOut) Unmount in
  steps (mount plainLocation None 0) evs = Some m
  /\ log m = [Subscribe 0; Call signOut; Unsubscribe 0]
  /\ In (op_name (Call signOut)) componentOps.
Proof.
  intros evs m.
  assert (Hexec : steps (mount plainLocation None 0) evs = Some m)
    by reflexivity.
  destruct (sdk_requests_of_the_component plainLocation None 0 evs m Hexec)
    as (Hall & _).
  assert (Hin : In (Call signOut) (log m)) by (simpl; auto).
  destruct (Hall (Call signOut) Hin) as (Hname & _).
  exact (conj Hexec (conj eq_refl Hname)).
Defined.

(** C4 as the claim words it fails: a click on "Sign out" calls the SDK's
    signOut, which is none of the four calls the claim lists. *)
Lemma sign_out_is_a_fifth_call :
  let m := step (mount plainLocation (Some alice) 0) ClickSignOut in
  steps (mount plainLocation (Some alice) 0) [ClickSignOut] = Some m
  /\ In (Call signOut) (log m)
  /\ ~ In (call_name signOut) checkedCalls.
Proof.
  intros m. split; [reflexivity |]. split; [simpl; auto |].
  simpl. intros [H | [H | [H | [H | []]]]]; discriminate H.
Qed.

(** ** The subscription *)

Lemma steps_invariant_on (Q : Event -> bool) (P : Machine -> Prop) :
  (forall m ev, P m -> enabled m ev = true -> Q ev = true -> P (step m ev)) ->
  forall evs m m',
    forallb Q evs = true -> P m -> steps m evs = Some m' -> P m'.
Proof.
  intros Hstep evs; induction evs as [| ev evs IH];
    intros m m' HQ Hm H; simpl in H.
  - now inversion H; subst.
  - simpl in HQ. apply andb_prop in HQ as [Hev HQ].
    destruct (enabled m ev) eqn:E; [| discriminate].
    eapply IH; [exact HQ | | exact H]. now apply Hstep.
Qed.

Lemma lifecycle_calls (l : list Pending) :
  lifecycle (map (fun p => Call (call p)) l) = [].
Proof. induction l as [| p l IH]; simpl; auto. Qed.

Lemma stable_lifecycle window user client evs m :
  steps (mount window user client) evs = Some m ->
  stable client evs = true ->
  supabase m = client
  /\ lifecycle (log m)
     = (if mounted m then [Subscribe 0] else [Subscribe 0; Unsubscribe 0])
  /\ subscription m = (if mounted m then Some 0 else None).
Proof.
  intros Hexec Hstable. revert Hexec.
  apply (steps_invariant_on (same_client client)
           (fun m => supabase m = client
              /\ lifecycle (log m)
                 = (if mounted m then [Subscribe 0]
                    else [Subscribe 0; Unsubscribe 0])
              /\ subscription m = (if mounted m then Some 0 else None)));
    [| exact Hstable |].
  - intros m0 ev (Hs & Hl & Hsub) He Hq.
    unfold lifecycle in *.
    rewrite step_log, step_subscription, step_mounted, !filter_app.
    fold (lifecycle (map (fun p => Call (call p)) (awaited (task_of m0 ev)))).
    rewrite lifecycle_calls, Hl. cbn [app].
    destruct ev as [ | | | | o | v | v | v | v | e s | i r | c | ];
      try (unfold step; rewrite ?run_supabase; cbn [lifecycle_ops filter];
           rewrite app_nil_r; now auto).
    + unfold step. destruct (nth_error (pending m0) i);
        [rewrite (run_supabase _ (settle i m0)) |];
        cbn [lifecycle_ops filter supabase settle]; rewrite app_nil_r; auto.
    + simpl in Hq. apply Nat.eqb_eq in Hq. subst c.
      unfold step, lifecycle_ops. rewrite Hs, Nat.eqb_refl.
      cbn [filter]. rewrite app_nil_r. auto.
    + simpl in He. rewrite He in *. unfold lifecycle_ops, unsubscribed.
      rewrite Hsub. cbn. split; [| auto].
      unfold cleanup. now rewrite Hsub.
  - unfold mount. rewrite run_supabase, run_log, run_subscription,
      run_mounted. unfold lifecycle. rewrite filter_app.
    fold (lifecycle (map (fun p => Call (call p))
                       (awaited (recoveryEffect (Some window))))).
    rewrite lifecycle_calls. simpl. auto.
Qed.

Lemma remove_nth_keeps {A : Type} (l : list A) (i j : nat) (x : A) :
  nth_error l j = Some x -> j <> i -> In x (remove_nth i l).
Proof.
  revert i j; induction l as [| y l IH]; intros i j Hj Hne.
  - destruct j; discriminate.
  - destruct i as [| i], j as [| j]; simpl in *.
    + congruence.
    + eapply nth_error_In; eauto.
    + left. congruence.
    + right. eapply IH; eauto.
Qed.

Lemma unsubscribes_app (id : nat) (l1 l2 : list SdkOp) :
  unsubscribes id (l1 ++ l2)%list = unsubscribes id l1 + unsubscribes id l2.
Proof. unfold unsubscribes. now rewrite filter_app, length_app. Qed.

Lemma unsubscribes_calls (id : nat) (l : list Pending) :
  unsubscribes id (map (fun p => Call (call p)) l) = 0.
Proof. induction l as [| p l IH]; simpl; auto. Qed.

Lemma unsubscribes_unsubscribed (m : Machine) :
  unsubscribes 0 (unsubscribed m) = if holds 0 (subscription m) then 1 else 0.
Proof.
  unfold unsubscribed, unsubscribes, holds.
  destruct (subscription m) as [[| id] |]; reflexivity.
Qed.

(** Whatever client the renders get, the subscription made at mount is
    unsubscribed once it is no longer held, and never twice. *)
Lemma first_subscription_closed_once window user client evs m :
  steps (mount window user client) evs = Some m ->
  0 < length (log m)
  /\ unsubscribes 0 (log m) = if holds 0 (subscription m) then 0 else 1.
Proof.
  apply (steps_invariant
           (fun m => 0 < length (log m)
              /\ unsubscribes 0 (log m)
                 = if holds 0 (subscription m) then 0 else 1)).
  - intros m0 ev (Hlen & Hcount) _.
    rewrite step_log, step_subscription, length_app, !unsubscribes_app,
      unsubscribes_calls, Hcount.
    split; [lia |]. cbn [Nat.add].
    destruct ev as [ | | | | o | v | v | v | v | e s | i r | c | ];
      unfold lifecycle_ops; try (cbn [unsubscribes filter length]; lia).
    + destruct (Nat.eqb c (supabase m0));
        [cbn [unsubscribes filter length]; lia |].
      rewrite unsubscribes_app, unsubscribes_unsubscribed, length_app.
      assert (Hfresh : holds 0 (Some (length (log m0) + length (unsubscribed m0)))
                       = false).
      { destruct (length (log m0)); [lia | reflexivity]. }
      rewrite Hfresh. cbn [unsubscribes filter is_unsubscribe length].
      destruct (holds 0 (subscription m0)); lia.
    + rewrite unsubscribes_unsubscribed. cbn [holds].
      destruct (holds 0 (subscription m0)); lia.
  - unfold mount. rewrite run_log, run_subscription, length_app,
      unsubscribes_app, unsubscribes_calls.
    simpl. split; [lia | reflexivity].
Qed.

(** C8.  The listener subscribed at mount is unsubscribed exactly once:
    never while the component still holds the subscription, and once by
    the time it is torn down.  While every render gets the same SDK client,
    that subscription is the only one, it stays open for as long as the
    component is mounted, and it is the teardown that unsubscribes it.
    Nothing else is ever cancelled: a call in flight stays in flight
    through every event, the teardown included, until its own result
    arrives. *)
Theorem listener_unsubscribed_once_at_teardown
  (window : Location) (user : option User) (client : nat)
  (evs : list Event) (m : Machine)
  (Hexec : steps (mount window user client) evs = Some m) :
  unsubscribes 0 (log m) = (if holds 0 (subscription m) then 0 else 1)
  /\ (mounted m = false ->
      subscription m = None /\ unsubscribes 0 (log m) = 1)
  /\ (stable client evs = true ->
      lifecycle (log m)
        = (if mounted m then [Subscribe 0] else [Subscribe 0; Unsubscribe 0])
      /\ subscription m = (if mounted m then Some 0 else None)
      /\ (mounted m = true ->
          lifecycle (log (step m Unmount)) = [Subscribe 0; Unsubscribe 0]
          /\ enabled (step m Unmount) Unmount = false))
  /\ (forall ev j p,
        nth_error (pending m) j = Some p ->
        (forall i r, ev <> Resolve i r) ->
        nth_error (pending (step m ev)) j = Some p)
  /\ (forall i r j p,
        nth_error (pending m) j = Some p -> j <> i ->
        In p (pending (step m (Resolve i r)))).
Proof.
  destruct (first_subscription_closed_once _ _ _ _ _ Hexec) as (_ & Hcount).
  split; [exact Hcount |]. split; [| split; [| split]].
  - intros Hm. pose proof (subscribed_mounted _ _ _ _ _ Hexec Hm) as Hnone.
    split; [exact Hnone |]. now rewrite Hcount, Hnone.
  - intros Hstable.
    destruct (stable_lifecycle _ _ _ _ _ Hexec Hstable) as (Hs & Hl & Hsub).
    split; [exact Hl |]. split; [exact Hsub |].
    intros Hm. rewrite Hm in *. split.
    + unfold lifecycle in *. rewrite step_log, !filter_app, Hl.
      unfold lifecycle_ops, unsubscribed. now rewrite Hsub.
    + unfold enabled. now rewrite step_mounted.
  - intros ev j p Hp Hev. rewrite step_pending.
    assert (Hkeep : (match ev with
                     | Resolve i _ => remove_nth i (pending m)
                     | _ => pending m
                     end) = pending m).
    { destruct ev as [ | | | | o | v | v | v | v | e s | i r | c | ]; auto.
      now elim (Hev i r). }
    rewrite Hkeep, nth_error_app1; [exact Hp |].
    apply nth_error_Some. congruence.
  - intros i r j p Hp Hne. rewrite step_pending.
    apply in_or_app. left. eapply remove_nth_keeps; eauto.
Qed.

Lemma listener_unsubscribed_once_at_teardown_witness :
  let evs := [SubmitForm; Render 0; Unmount] in
  let m := step (step (step (mount plainLocation None 0) SubmitForm)
                   (Render 0)) Unmount in
  steps (mount plainLocation None 0) evs = Some m
  /\ mounted m = false
  /\ stable 0 evs = true
  /\ unsubscribes 0 (log m) = 1
  /\ lifecycle (log m) = [Subscribe 0; Unsubscribe 0]
  /\ subscription m = None
  /\ length (pending m) = 1.
Proof.
  intros evs m.
  assert (Hexec : steps (mount plainLocation None 0) evs = Some m)
    by reflexivity.
  assert (Hdown : mounted m = false) by reflexivity.
  assert (Hstable : stable 0 evs = true) by reflexivity.
  destruct (listener_unsubscribed_once_at_teardown plainLocation None 0 evs m
              Hexec) as (_ & Hclosed & Hsame & _).
  destruct (Hclosed Hdown) as (_ & Hone).
  destruct (Hsame Hstable) as (Hl & Hsub & _).
  exact (conj Hexec (conj Hdown (conj Hstable (conj Hone
           (conj Hl (conj Hsub eq_refl)))))).
Defined.

(** * Further properties of the component *)

(** ** Properties of a whole execution *)

Lemma steps_trace_invariant (P : list Event -> Machine -> Prop) :
  (forall pre m ev,
     P pre m -> enabled m ev = true -> P (pre ++ [ev])%list (step m ev)) ->
  forall evs m0 m, P [] m0 -> steps m0 evs = Some m -> P evs m.
Proof.
  intros Hstep.
  assert (Hgen : forall evs pre m0 m,
             P pre m0 -> steps m0 evs = Some m -> P (pre ++ evs)%list m).
  { intros evs; induction evs as [| ev evs IH]; intros pre m0 m H0 H;
      simpl in H.
    - rewrite app_nil_r. now inversion H; subst.
    - destruct (enabled m0 ev) eqn:E; [| discriminate].
      replace (pre ++ ev :: evs)%list with ((pre ++ [ev]) ++ evs)%list
        by now rewrite <- app_assoc.
      eapply IH; [| exact H]. now apply Hstep. }
  intros evs m0 m H0 H. exact (Hgen evs [] m0 m H0 H).
Qed.

Lemma ui_mount (window : Location) (user : option User) (client : nat) :
  ui (mount window user client) = initialState (Some window) user.
Proof.
  unfold mount. rewrite run_ui.
  unfold recoveryEffect, subscribe, initialState. cbn [mounted ui].
  destruct (hasRecoveryParams (Some window)); reflexivity.
Qed.

Lemma status_step (m : Machine) (ev : Event) :
  canonical m ->
  status (ui (step m ev)) = status (ui m)
  \/ In (status (ui (step m ev))) ownMessages
  \/ (exists i r e,
        ev = Resolve i r /\ error r = Some e
        /\ status (ui (step m ev)) = message e).
Proof.
  intros Hc. rewrite step_ui. destruct (mounted m); [| now left].
  destruct ev as [ | | | | o | v | v | v | v | e s | i r | c | ];
    unfold task_of;
    try (now left); try (right; left; simpl; tauto).
  - destruct (setters_handleFormSubmit (windowOrigin m) (ui m))
      as [-> | [-> | ->]]; [now left | |]; right; left; simpl; tauto.
  - unfold authListener. simpl.
    destruct (e =? "PASSWORD_RECOVERY")%string; [| now left].
    right; left. simpl. tauto.
  - destruct (nth_error (pending m) i) eqn:E; [| now left].
    rewrite (canonical_lookup m i p Hc E).
    destruct (call p), r as [[err |]];
      try (right; left; simpl; tauto);
      right; right; exists i, (mkSdkResult (Some err)), err; auto.
Qed.

Lemma reported_snoc (pre : list Event) (ev : Event) :
  reported (pre ++ [ev]) = (reported pre ++ reported [ev])%list.
Proof. unfold reported. now rewrite flat_map_app. Qed.

(** X1.  The status line never shows anything but one of the component's
    own fixed messages (or nothing) or the message of an error the SDK
    returned earlier in the same execution. *)
Theorem status_is_a_known_message
  (window : Location) (user : option User) (client : nat)
  (evs : list Event) (m : Machine)
  (Hexec : steps (mount window user client) evs = Some m) :
  In (status (ui m)) (ownMessages ++ reported evs)%list.
Proof.
  assert (H : canonical m
              /\ In (status (ui m)) (ownMessages ++ reported evs)%list);
    [| exact (proj2 H)].
  revert Hexec.
  apply (steps_trace_invariant
           (fun evs m => canonical m
              /\ In (status (ui m)) (ownMessages ++ reported evs)%list)).
  - intros pre m0 ev (Hc & Hin) _. split; [now apply canonical_step |].
    rewrite reported_snoc, app_assoc.
    destruct (status_step m0 ev Hc) as [-> | [H | (i & r & e & -> & Hr & ->)]].
    + apply in_or_app. now left.
    + apply in_or_app. left. apply in_or_app. now left.
    + apply in_or_app. right. simpl. rewrite Hr. simpl. auto.
  - split; [apply canonical_mount |].
    rewrite app_nil_r, ui_mount. unfold initialState. cbn [status].
    destruct (hasRecoveryParams (Some window)); simpl; tauto.
Qed.

Lemma status_is_a_known_message_witness :
  let evs := [SubmitForm; Resolve 0 (failed rateLimited)] in
  let m := step (step (mount plainLocation None 0) SubmitForm)
             (Resolve 0 (failed rateLimited)) in
  steps (mount plainLocation None 0) evs = Some m
  /\ status (ui m) = "Email rate limit exceeded"
  /\ In (status (ui m)) (ownMessages ++ reported evs)%list.
Proof.
  intros evs m.
  assert (Hexec : steps (mount plainLocation None 0) evs = Some m)
    by reflexivity.
  exact (conj Hexec (conj eq_refl
           (status_is_a_known_message plainLocation None 0 evs m Hexec))).
Defined.

Lemma is_call_calls (l : list Pending) :
  filter is_call (map (fun p => Call (call p)) l)
  = map (fun p => Call (call p)) l.
Proof. induction l as [| p l IH]; simpl; congruence. Qed.

Lemma is_call_lifecycle_ops (m : Machine) (ev : Event) :
  filter is_call (lifecycle_ops m ev) = [].
Proof.
  destruct ev as [ | | | | o | v | v | v | v | e s | i r | c | ];
    unfold lifecycle_ops, unsubscribed; try reflexivity.
  - destruct (Nat.eqb c (supabase m)); [reflexivity |].
    now destruct (subscription m).
  - now destruct (subscription m).
Qed.

Lemma task_of_awaited_bound (m : Machine) (ev : Event) :
  canonical m ->
  length (awaited (task_of m ev)) <= (if asks_sdk ev then 1 else 0).
Proof.
  intros Hc.
  destruct ev as [ | | | | o | v | v | v | v | e s | i r | c | ];
    unfold task_of; try (simpl; lia).
  - unfold handleFormSubmit, handlePasswordResetRequest, handlePasswordUpdate,
      handleSubmit.
    destruct (isResetRequest (ui m)); [simpl; lia |].
    destruct (isPasswordUpdate (ui m)).
    + destruct (String.length (newPassword (ui m)) <? 6); [simpl; lia |].
      destruct (negb (newPassword (ui m) =? confirmPassword (ui m))%string);
        simpl; lia.
    + destruct (mode (ui m) =? "signup")%string; simpl; lia.
  - unfold authListener. simpl.
    destruct (e =? "PASSWORD_RECOVERY")%string; simpl; lia.
  - destruct (nth_error (pending m) i) eqn:E; [| simpl; lia].
    rewrite (canonical_lookup m i p Hc E), kont_awaited. simpl. lia.
Qed.

Lemma calls_step (m : Machine) (ev : Event) :
  filter is_call (log (step m ev))
  = (filter is_call (log m)
     ++ map (fun p => Call (call p)) (awaited (task_of m ev)))%list.
Proof.
  rewrite step_log, !filter_app, is_call_calls, is_call_lifecycle_ops.
  now rewrite app_nil_r.
Qed.

(** X2.  The component calls the SDK only in answer to a submit or a click
    on "Sign out", and at most once for each: no other event (typing, the
    other buttons, an auth event, the result of an earlier call, a render,
    the teardown) makes a call, so a failed call is never repeated. *)
Theorem calls_only_on_submit_or_sign_out
  (window : Location) (user : option User) (client : nat)
  (evs : list Event) (m : Machine)
  (Hexec : steps (mount window user client) evs = Some m) :
  length (filter is_call (log m)) <= length (filter asks_sdk evs)
  /\ (forall ev, asks_sdk ev = false ->
        filter is_call (log (step m ev)) = filter is_call (log m))
  /\ (forall ev,
        length (filter is_call (log (step m ev)))
        <= S (length (filter is_call (log m)))).
Proof.
  assert (H : canonical m
              /\ length (filter is_call (log m))
                 <= length (filter asks_sdk evs)).
  { revert Hexec.
    apply (steps_trace_invariant
             (fun evs m => canonical m
                /\ length (filter is_call (log m))
                   <= length (filter asks_sdk evs))).
    - intros pre m0 ev (Hc & Hle) _. split; [now apply canonical_step |].
      rewrite calls_step, filter_app, !length_app, length_map.
      pose proof (task_of_awaited_bound m0 ev Hc) as Hb.
      simpl. destruct (asks_sdk ev); simpl; lia.
    - split; [apply canonical_mount |]. unfold mount.
      rewrite run_log. unfold recoveryEffect.
      destruct (negb (hasRecoveryParams (Some window)) || false); simpl; lia. }
  destruct H as (Hc & Hle). split; [exact Hle |]. split.
  - intros ev Hev. rewrite calls_step.
    pose proof (task_of_awaited_bound m ev Hc) as Hb. rewrite Hev in Hb.
    destruct (awaited (task_of m ev)); [now rewrite app_nil_r | simpl in Hb; lia].
  - intros ev. rewrite calls_step, length_app, length_map.
    pose proof (task_of_awaited_bound m ev Hc) as Hb.
    destruct (asks_sdk ev); lia.
Qed.

Lemma calls_only_on_submit_or_sign_out_witness :
  let evs := [ChangeEmail "alice@demo.test"; SubmitForm;
              Resolve 0 (failed rateLimited);
              AuthStateChange "SIGNED_IN" (Some aliceSession)] in
  let m := step (step (step (step (mount plainLocation None 0)
                               (ChangeEmail "alice@demo.test")) SubmitForm)
                   (Resolve 0 (failed rateLimited)))
             (AuthStateChange "SIGNED_IN" (Some aliceSession)) in
  steps (mount plainLocation None 0) evs = Some m
  /\ length (filter is_call (log m)) <= 1.
Proof.
  intros evs m.
  assert (Hexec : steps (mount plainLocation None 0) evs = Some m)
    by reflexivity.
  destruct (calls_only_on_submit_or_sign_out plainLocation None 0 evs m Hexec)
    as (Hle & _).
  exact (conj Hexec Hle).
Defined.

Lemma email_step (m : Machine) (ev : Event) :
  canonical m -> enabled m ev = true ->
  email (ui (step m ev))
  = match ev with
    | ChangeEmail v => v
    | _ => email (ui m)
    end.
Proof.
  intros Hc He. rewrite step_ui.
  destruct ev as [ | | | | o | v | v | v | v | e s | i r | c | ];
    unfold task_of; try (now destruct (mounted m)).
  - destruct (setters_handleFormSubmit (windowOrigin m) (ui m))
      as [-> | [-> | ->]]; now destruct (mounted m).
  - simpl in He. apply andb_prop in He as [He _].
    apply andb_prop in He as [He _]. now rewrite He.
  - unfold authListener. simpl.
    destruct (e =? "PASSWORD_RECOVERY")%string; now destruct (mounted m).
  - destruct (nth_error (pending m) i) eqn:E; [| now destruct (mounted m)].
    rewrite (canonical_lookup m i p Hc E).
    destruct (call p), r as [[err |]]; now destruct (mounted m).
Qed.

Lemma typedEmail_snoc (pre : list Event) (ev : Event) :
  typedEmail (pre ++ [ev])
  = match ev with
    | ChangeEmail v => v
    | _ => typedEmail pre
    end.
Proof. unfold typedEmail. rewrite fold_left_app. reflexivity. Qed.

(** X3.  The email cell always holds what was last typed into the email
    input (nothing, if nothing was typed): no handler, auth event or SDK
    result ever writes or clears it, whichever forms were opened and
    closed in between. *)
Theorem email_is_what_was_typed
  (window : Location) (user : option User) (client : nat)
  (evs : list Event) (m : Machine)
  (Hexec : steps (mount window user client) evs = Some m) :
  email (ui m) = typedEmail evs.
Proof.
  assert (H : canonical m /\ email (ui m) = typedEmail evs);
    [| exact (proj2 H)].
  revert Hexec.
  apply (steps_trace_invariant
           (fun evs m => canonical m /\ email (ui m) = typedEmail evs)).
  - intros pre m0 ev (Hc & Hemail) He. split; [now apply canonical_step |].
    rewrite (email_step m0 ev Hc He), typedEmail_snoc, Hemail. reflexivity.
  - split; [apply canonical_mount |]. now rewrite ui_mount.
Qed.

Lemma email_is_what_was_typed_witness :
  let evs := [ChangeEmail "alice@demo.test"; ClickMode "signin";
              ClickForgotPassword; ClickBackToSignIn] in
  let m := step (step (step (step (mount plainLocation None 0)
                               (ChangeEmail "alice@demo.test"))
                         (ClickMode "signin")) ClickForgotPassword)
             ClickBackToSignIn in
  steps (mount plainLocation None 0) evs = Some m
  /\ email (ui m) = "alice@demo.test".
Proof.
  intros evs m.
  assert (Hexec : steps (mount plainLocation None 0) evs = Some m)
    by (vm_compute; reflexivity).
  exact (conj Hexec
           (email_is_what_was_typed plainLocation None 0 evs m Hexec)).
Defined.

(** ** The listener over a whole execution *)

Lemma replay_app (open : option nat) (l1 l2 : list SdkOp) :
  replay open (l1 ++ l2)
  = match replay open l1 with
    | Some open' => replay open' l2
    | None => None
    end.
Proof.
  revert open; induction l1 as [| o l1 IH]; intros open; simpl; auto.
  destruct o as [c | id | id]; auto.
  - destruct open; auto.
  - destruct open as [id' |]; auto. destruct (Nat.eqb id id'); auto.
Qed.

Lemma replay_calls (open : option nat) (l : list Pending) :
  replay open (map (fun p => Call (call p)) l) = Some open.
Proof. induction l as [| p l IH]; simpl; auto. Qed.

Lemma replay_lifecycle_ops (m : Machine) (ev : Event) :
  replay (subscription m) (lifecycle_ops m ev)
  = Some (subscription (step m ev)).
Proof.
  rewrite step_subscription.
  destruct ev as [ | | | | o | v | v | v | v | e s | i r | c | ];
    unfold lifecycle_ops, unsubscribed; try reflexivity.
  - destruct (Nat.eqb c (supabase m)); [reflexivity |].
    destruct (subscription m) as [id |]; simpl; [| reflexivity].
    now rewrite Nat.eqb_refl.
  - destruct (subscription m) as [id |]; simpl; [| reflexivity].
    now rewrite Nat.eqb_refl.
Qed.

(** X4.  Whatever SDK client each render gets, the requests in the log keep
    the subscription discipline: a listener is subscribed only while none is
    open, every unsubscribe closes the one that is open, and the one left
    open at the end is the one the cleanup holds.  A listener is open
    exactly while the component is mounted, so none outlives it. *)
Theorem never_two_listeners
  (window : Location) (user : option User) (client : nat)
  (evs : list Event) (m : Machine)
  (Hexec : steps (mount window user client) evs = Some m) :
  replay None (log m) = Some (subscription m)
  /\ is_some (subscription m) = mounted m.
Proof.
  revert Hexec.
  apply (steps_invariant
           (fun m => replay None (log m) = Some (subscription m)
                     /\ is_some (subscription m) = mounted m)).
  - intros m0 ev (Hr & Hm) He. split.
    + rewrite step_log, replay_app, Hr. cbv iota beta.
      rewrite replay_app, replay_calls. apply replay_lifecycle_ops.
    + rewrite step_subscription, step_mounted.
      destruct ev as [ | | | | o | v | v | v | v | e s | i r | c | ]; auto.
      simpl in He. rewrite He in *.
      destruct (Nat.eqb c (supabase m0)); auto.
  - unfold mount.
    rewrite run_log, run_subscription, run_mounted, replay_app. simpl.
    split; [| reflexivity]. apply replay_calls.
Qed.

Lemma never_two_listeners_witness :
  let evs := [Render 1; SubmitForm; Render 2; Unmount] in
  let m := step (step (step (step (mount plainLocation None 0) (Render 1))
                         SubmitForm) (Render 2)) Unmount in
  steps (mount plainLocation None 0) evs = Some m
  /\ lifecycle (log m)
     = [Subscribe 0; Unsubscribe 0; Subscribe 2; Unsubscribe 2;
        Subscribe 5; Unsubscribe 5]
  /\ replay None (log m) = Some (subscription m)
  /\ is_some (subscription m) = mounted m.
Proof.
  intros evs m.
  assert (Hexec : steps (mount plainLocation None 0) evs = Some m)
    by (vm_compute; reflexivity).
  destruct (never_two_listeners plainLocation None 0 evs m Hexec)
    as (Hr & Hm).
  exact (conj Hexec (conj eq_refl (conj Hr Hm))).
Defined.

(** X5.  Once torn down, the component is inert: the only thing that can
    still happen is that a call in flight resolves, and then no state cell
    changes, nothing is asked of the SDK, and the component stays torn
    down. *)
Theorem torn_down_component_is_inert
  (window : Location) (user : option User) (client : nat)
  (evs : list Event) (m : Machine) (ev : Event)
  (Hexec : steps (mount window user client) evs = Some m)
  (Hdown : mounted m = false)
  (Hen : enabled m ev = true) :
  (exists i r, ev = Resolve i r)
  /\ ui (step m ev) = ui m
  /\ log (step m ev) = log m
  /\ subscription (step m ev) = None
  /\ mounted (step m ev) = false.
Proof.
  pose proof (canonical_steps _ _ _ _ _ Hexec) as Hc.
  pose proof (subscribed_mounted _ _ _ _ _ Hexec Hdown) as Hsub.
  destruct ev as [ | | | | o | v | v | v | v | e s | i r | c | ];
    simpl in Hen; rewrite ?Hdown, ?Hsub in Hen; try discriminate Hen.
  split; [now exists i, r |].
  rewrite step_ui, step_log, step_subscription, step_mounted, Hdown.
  repeat split; auto.
  unfold task_of, lifecycle_ops.
  destruct (nth_error (pending m) i) eqn:E; [| simpl; now rewrite app_nil_r].
  rewrite (canonical_lookup m i p Hc E), kont_awaited. simpl.
  now rewrite app_nil_r.
Qed.

Lemma torn_down_component_is_inert_witness :
  let evs := [SubmitForm; Unmount] in
  let m := step (step (mount plainLocation None 0) SubmitForm) Unmount in
  let ev := Resolve 0 ok in
  steps (mount plainLocation None 0) evs = Some m
  /\ mounted m = false
  /\ enabled m ev = true
  /\ ui (step m ev) = ui m
  /\ log (step m ev) = log m.
Proof.
  intros evs m ev.
  assert (Hexec : steps (mount plainLocation None 0) evs = Some m)
    by reflexivity.
  assert (Hdown : mounted m = false) by reflexivity.
  assert (Hen : enabled m ev = true) by reflexivity.
  destruct (torn_down_component_is_inert plainLocation None 0 evs m ev
              Hexec Hdown Hen) as (_ & Hui & Hlog & _).
  exact (conj Hexec (conj Hdown (conj Hen (conj Hui Hlog)))).
Defined.

(** ** Flows *)

Lemma steps_cons (m : Machine) (ev : Event) (rest : list Event) :
  steps m (ev :: rest)
  = if enabled m ev then steps (step m ev) rest else None.
Proof. reflexivity. Qed.

Lemma steps_app (m : Machine) (l1 l2 : list Event) :
  steps m (l1 ++ l2)
  = match steps m l1 with
    | Some m' => steps m' l2
    | None => None
    end.
Proof.
  revert m; induction l1 as [| ev l1 IH]; intros m; simpl; auto.
  destruct (enabled m ev); auto.
Qed.

Lemma nth_error_snoc {A : Type} (l : list A) (x : A) :
  nth_error (l ++ [x]) (length l) = Some x.
Proof. induction l as [| y l IH]; simpl; auto. Qed.

Lemma remove_nth_snoc {A : Type} (l : list A) (x : A) :
  remove_nth (length l) (l ++ [x]) = l.
Proof. induction l as [| y l IH]; simpl; congruence. Qed.

(** A click on "Sign out" followed by the answer of the SDK. *)
Lemma sign_out_round (m : Machine) (r : SdkResult) :
  mounted m = true -> is_some (currentUser (ui m)) = true ->
  steps m [ClickSignOut; Resolve (length (pending m)) r]
  = Some (mkMachine (signedOut (ui m)) (pending m)
            (log m ++ [Call signOut])%list true (supabase m)
            (subscription m) (windowOrigin m)).
Proof.
  intros Hm Hu. unfold steps.
  assert (He1 : enabled m ClickSignOut = true)
    by (unfold enabled; now rewrite Hm, Hu).
  rewrite He1.
  change (step m ClickSignOut) with (issue signOut afterSignOut m).
  assert (He2 : enabled (issue signOut afterSignOut m)
                  (Resolve (length (pending m)) r) = true).
  { unfold enabled, issue. cbn [pending]. rewrite length_app. simpl.
    apply Nat.ltb_lt. lia. }
  rewrite He2. unfold step, issue. cbn [pending].
  rewrite nth_error_snoc. cbn [cont]. unfold settle. cbn [pending ui log
    mounted supabase subscription windowOrigin].
  rewrite remove_nth_snoc. unfold afterSignOut. cbn [run].
  unfold dispatch. cbn [mounted]. rewrite Hm. reflexivity.
Qed.

(** X6.  No state traps the user.  From every state of a mounted
    component, at most three steps that need only the user and the answer
    to a sign-out (closing a reset form, signing out, choosing "Sign in")
    lead to the plain sign-in form: no reset mode, mode "signin", nobody
    signed in, "Forgot password?" on offer. *)
Theorem sign_in_form_is_within_reach
  (m : Machine) (Hmounted : mounted m = true) :
  exists evs m',
    length evs <= 3
    /\ forallb user_or_answer evs = true
    /\ steps m evs = Some m'
    /\ resetMode (ui m') = "none"
    /\ mode (ui m') = "signin"
    /\ currentUser (ui m') = None
    /\ enabled m' ClickForgotPassword = true
    /\ email (ui m') = email (ui m).
Proof.
  destruct (isResetNone (ui m)) eqn:Enone;
    destruct (currentUser (ui m)) as [u |] eqn:Euser.
  - (* signed in, no reset form: sign out, then choose "Sign in" *)
    exists [ClickSignOut; Resolve (length (pending m)) ok; ClickMode "signin"].
    eexists. split; [simpl; lia |]. split; [reflexivity |].
    change [ClickSignOut; Resolve (length (pending m)) ok; ClickMode "signin"]
      with ([ClickSignOut; Resolve (length (pending m)) ok]
            ++ [ClickMode "signin"])%list.
    rewrite steps_app, sign_out_round by (auto; now rewrite Euser).
    split; [reflexivity |]. repeat split; reflexivity.
  - (* nobody signed in, no reset form: choose "Sign in" *)
    exists [ClickMode "signin"]. eexists.
    split; [simpl; lia |]. split; [reflexivity |].
    assert (He : enabled m (ClickMode "signin") = true).
    { unfold enabled, formVisible. now rewrite Hmounted, Euser, Enone. }
    unfold steps. rewrite He. split; [reflexivity |].
    unfold enabled, formVisible, isResetNone.
    rewrite !step_ui, step_mounted, Hmounted. simpl. rewrite Euser.
    unfold isResetNone in Enone. rewrite Enone.
    apply String.eqb_eq in Enone. auto.
  - (* signed in, a reset form open: close it, then sign out *)
    exists [ClickBackToSignIn; ClickSignOut;
            Resolve (length (pending m)) ok].
    eexists. split; [simpl; lia |]. split; [reflexivity |].
    assert (He : enabled m ClickBackToSignIn = true).
    { unfold enabled, formVisible. now rewrite Hmounted, Euser, Enone. }
    change [ClickBackToSignIn; ClickSignOut; Resolve (length (pending m)) ok]
      with ([ClickBackToSignIn]
            ++ [ClickSignOut; Resolve (length (pending m)) ok])%list.
    rewrite steps_app.
    change (steps m [ClickBackToSignIn])
      with (if enabled m ClickBackToSignIn
            then Some (step m ClickBackToSignIn) else None).
    rewrite He.
    replace (length (pending m))
      with (length (pending (step m ClickBackToSignIn)))
      by (rewrite step_pending; simpl; now rewrite app_nil_r).
    rewrite sign_out_round.
    + split; [reflexivity |].
      cbn [ui signedOut resetMode mode currentUser email].
      rewrite step_ui, Hmounted. simpl. repeat split; reflexivity.
    + now rewrite step_mounted.
    + rewrite step_ui, Hmounted. simpl. now rewrite Euser.
  - (* nobody signed in, a reset form open: close it *)
    exists [ClickBackToSignIn]. eexists.
    split; [simpl; lia |]. split; [reflexivity |].
    assert (He : enabled m ClickBackToSignIn = true).
    { unfold enabled, formVisible. now rewrite Hmounted, Euser, Enone. }
    unfold steps. rewrite He. split; [reflexivity |].
    unfold enabled, formVisible, isResetNone.
    rewrite !step_ui, step_mounted, Hmounted. simpl. rewrite Euser. auto.
Qed.

Lemma sign_in_form_is_within_reach_witness :
  let m := step (mount plainLocation (Some alice) 0)
             (AuthStateChange "PASSWORD_RECOVERY" (Some aliceSession)) in
  mounted m = true
  /\ exists evs m',
       length evs <= 3
       /\ forallb user_or_answer evs = true
       /\ steps m evs = Some m'
       /\ resetMode (ui m') = "none"
       /\ mode (ui m') = "signin"
       /\ currentUser (ui m') = None
       /\ enabled m' ClickForgotPassword = true
       /\ email (ui m') = email (ui m).
Proof.
  intros m.
  assert (Hmounted : mounted m = true) by reflexivity.
  exact (conj Hmounted (sign_in_form_is_within_reach m Hmounted)).
Defined.

(** X7.  The recovery flow, end to end.  From any state of a mounted,
    subscribed component: a PASSWORD_RECOVERY event, the same password of
    at least six characters typed into both fields, a submit and a
    successful answer make exactly one request of the SDK, updateUser with
    that password, and leave the reset mode at "none", both password fields
    empty and the success message in the status line; mode, email and
    password are as they were, and the current user is the event's. *)
Theorem recovery_flow_updates_the_password
  (m : Machine) (session : option Session) (p : string)
  (Hmounted : mounted m = true)
  (Hsubscribed : is_some (subscription m) = true)
  (Hlength : 6 <= String.length p) :
  steps m [AuthStateChange "PASSWORD_RECOVERY" session; ChangeNewPassword p;
           ChangeConfirmPassword p; SubmitForm;
           Resolve (length (pending m)) ok]
  = Some (mkMachine
            {| mode := mode (ui m);
               email := email (ui m);
               password := password (ui m);
               status := "Password updated. You're now signed in.";
               resetMode := "none";
               newPassword := "";
               confirmPassword := "";
               currentUser := option_map session_user session |}
            (pending m) (log m ++ [Call (updateUser p)])%list true
            (supabase m) (subscription m) (windowOrigin m)).
Proof.
  destruct m as [st pend lg mt sb sub wo].
  destruct st as [md em pw stt rm np cp cu].
  cbn [mounted subscription pending ui log supabase windowOrigin mode email
       password] in *.
  subst mt. destruct sub as [id |]; [| discriminate].
  assert (Hl : (String.length p <? 6) = false) by (apply Nat.ltb_ge; lia).
  set (cu' := option_map session_user session).
  set (m1 := mkMachine (mkState md em pw recoveryStatus "update" np cp cu')
               pend lg true sb (Some id) wo).
  set (m2 := mkMachine (mkState md em pw recoveryStatus "update" p cp cu')
               pend lg true sb (Some id) wo).
  set (m3 := mkMachine (mkState md em pw recoveryStatus "update" p p cu')
               pend lg true sb (Some id) wo).
  set (m4 := issue (updateUser p) afterUpdateUser m3).
  assert (Hvisible : forall st', resetMode st' = "update" ->
                                 formVisible st' = true).
  { intros st' Hst'. unfold formVisible, isResetNone. rewrite Hst'.
    apply orb_true_r. }
  rewrite steps_cons.
  replace (enabled _ (AuthStateChange _ _)) with true by reflexivity.
  replace (step _ (AuthStateChange "PASSWORD_RECOVERY" session)) with m1
    by reflexivity.
  rewrite steps_cons.
  replace (enabled m1 (ChangeNewPassword p)) with true
    by (unfold enabled; now rewrite Hvisible).
  replace (step m1 (ChangeNewPassword p)) with m2 by reflexivity.
  rewrite steps_cons.
  replace (enabled m2 (ChangeConfirmPassword p)) with true
    by (unfold enabled; now rewrite Hvisible).
  replace (step m2 (ChangeConfirmPassword p)) with m3 by reflexivity.
  rewrite steps_cons.
  replace (enabled m3 SubmitForm) with true
    by (unfold enabled; now rewrite Hvisible).
  replace (step m3 SubmitForm) with m4.
  2:{ unfold step, handleFormSubmit, handlePasswordUpdate, m3.
      cbn [ui isResetRequest isPasswordUpdate resetMode newPassword
           confirmPassword String.eqb Ascii.eqb Bool.eqb].
      now rewrite Hl, String.eqb_refl. }
  rewrite steps_cons.
  replace (enabled m4 (Resolve (length pend) ok)) with true.
  2:{ unfold enabled, m4, issue. cbn [pending]. rewrite length_app.
      symmetry. apply Nat.ltb_lt. simpl. lia. }
  unfold step, m4, issue. cbn [pending steps]. rewrite nth_error_snoc.
  unfold settle. cbn [cont pending ui log mounted supabase subscription
                      windowOrigin].
  rewrite remove_nth_snoc. reflexivity.
Qed.

Lemma recovery_flow_updates_the_password_witness :
  let m := mount plainLocation None 0 in
  mounted m = true
  /\ is_some (subscription m) = true
  /\ 6 <= String.length "secret1"
  /\ option_map (fun m' => (resetMode (ui m'), newPassword (ui m'), log m'))
       (steps m [AuthStateChange "PASSWORD_RECOVERY" (Some aliceSession);
                 ChangeNewPassword "secret1"; ChangeConfirmPassword "secret1";
                 SubmitForm; Resolve (length (pending m)) ok])
     = Some ("none", "", [Subscribe 0; Call (updateUser "secret1")]).
Proof.
  intros m.
  assert (Hmounted : mounted m = true) by reflexivity.
  assert (Hsubscribed : is_some (subscription m) = true) by reflexivity.
  assert (Hlength : 6 <= String.length "secret1") by (simpl; lia).
  split; [exact Hmounted |]. split; [exact Hsubscribed |].
  split; [exact Hlength |].
  rewrite (recovery_flow_updates_the_password m (Some aliceSession) "secret1"
             Hmounted Hsubscribed Hlength).
  reflexivity.
Defined.

(** ** The link in the reset email *)

Lemma password_reset_parameter_wins (suffix : string) :
  suffix = "" \/ (exists t, suffix = "&" ++ t) ->
  URLSearchParams.get
    (URLSearchParams.create ("?password-reset=true" ++ suffix))
    "password-reset"
  = Some "true".
Proof.
  intros [-> | (t & ->)]; [reflexivity |].
  unfold URLSearchParams.create, URLSearchParams.parse. simpl.
  destruct (URLSearchParams.split "&" t); reflexivity.
Qed.

(** X8.  The link the component asks the service to email leads back to
    the password-update form.  Every resetPasswordForEmail request of an
    execution carries the redirect URL origin + "/email-password" +
    "?password-reset=true"; and a page at that path and query, with
    whatever further query parameters and fragment the service appends,
    is recognised as a recovery redirect and starts in reset mode
    "update". *)
Theorem reset_link_reopens_the_update_form
  (window : Location) (user : option User) (client : nat)
  (evs : list Event) (m : Machine) (toEmail redirectTo : string)
  (Hexec : steps (mount window user client) evs = Some m)
  (Hsent : In (Call (resetPasswordForEmail toEmail redirectTo)) (log m)) :
  redirectTo
    = origin window ++ "/email-password" ++ "?password-reset=true"
  /\ forall suffix fragment visitor,
       suffix = "" \/ (exists t, suffix = "&" ++ t) ->
       let landing :=
         mkLocation (origin window) "/email-password"
           ("?password-reset=true" ++ suffix) fragment in
       hasRecoveryParams (Some landing) = true
       /\ resetMode (initialState (Some landing) visitor) = "update"
       /\ status (initialState (Some landing) visitor) = recoveryStatus.
Proof.
  split.
  - destruct (log_issued _ _ _ _ _ Hexec) as (_ & _ & Hl).
    rewrite Forall_forall in Hl. exact (Hl _ Hsent).
  - intros suffix fragment visitor Hsuffix landing.
    assert (Hrec : hasRecoveryParams (Some landing) = true).
    { unfold hasRecoveryParams, landing. cbn [hash search].
      destruct (strict_eq _ "recovery"); [reflexivity |].
      now rewrite (password_reset_parameter_wins suffix Hsuffix). }
    unfold initialState. cbn [resetMode status]. now rewrite Hrec.
Qed.

Lemma reset_link_reopens_the_update_form_witness :
  let evs := [ClickMode "signin"; ChangeEmail "alice@demo.test";
              ClickForgotPassword; SubmitForm] in
  let m := step (step (step (step (mount plainLocation None 0)
                               (ClickMode "signin"))
                         (ChangeEmail "alice@demo.test"))
                   ClickForgotPassword) SubmitForm in
  let redirectTo := "https://demo.test/email-password?password-reset=true" in
  steps (mount plainLocation None 0) evs = Some m
  /\ In (Call (resetPasswordForEmail "alice@demo.test" redirectTo)) (log m)
  /\ hasRecoveryParams
       (Some (mkLocation "https://demo.test" "/email-password"
                ("?password-reset=true" ++ "&code=abc") "#x"))
     = true.
Proof.
  intros evs m redirectTo.
  assert (Hexec : steps (mount plainLocation None 0) evs = Some m)
    by (vm_compute; reflexivity).
  assert (Hsent : In (Call (resetPasswordForEmail "alice@demo.test"
                              redirectTo)) (log m))
    by (vm_compute; tauto).
  destruct (reset_link_reopens_the_update_form plainLocation None 0 evs m
              "alice@demo.test" redirectTo Hexec Hsent) as (_ & Hlanding).
  destruct (Hlanding "&code=abc" "#x" None
              (or_intror (ex_intro _ "code=abc" eq_refl))) as (Hrec & _).
  exact (conj Hexec (conj Hsent Hrec)).
Defined.

(** ** The form and its handler *)

(** X9.  What the form announces is what its submit does.  In every state
    the label of the submit button, the heading and the badge come in one
    of four combinations, and with each the submit runs the matching
    handler: "Send reset email" the reset request, "Update password" the
    validated password update, "Create account" a signUp and "Sign in" a
    signInWithPassword with the email and password of the form. *)
Theorem submit_does_what_the_button_says (origin : string) (st : State) :
  (primaryButtonLabel st = "Send reset email"
   /\ primaryHeading st = "Request password reset"
   /\ badgeLabel st = "Recovery"
   /\ handleFormSubmit origin st
      = Await (resetPasswordForEmail (email st)
                 (origin ++ "/email-password?password-reset=true"))
              afterResetRequest)
  \/ (primaryButtonLabel st = "Update password"
      /\ primaryHeading st = "Choose a new password"
      /\ badgeLabel st = "Recovery"
         /\ handleFormSubmit origin st = handlePasswordUpdate st)
  \/ (primaryButtonLabel st = "Create account"
      /\ primaryHeading st = "Create an account"
      /\ badgeLabel st = "Credentials"
      /\ handleFormSubmit origin st
         = Await (signUp (email st) (password st) (origin ++ "/welcome"))
                 afterSignUp)
  \/ (primaryButtonLabel st = "Sign in"
      /\ primaryHeading st = "Welcome back"
      /\ badgeLabel st = "Credentials"
      /\ handleFormSubmit origin st
         = Await (signInWithPassword (email st) (password st)) afterSignIn).
Proof.
  unfold primaryButtonLabel, primaryHeading, badgeLabel, handleFormSubmit, handlePasswordResetRequest, handleSubmit.
  destruct (isResetRequest st).
  - left. repeat split; auto.
  - destruct (isPasswordUpdate st).
    + right; left. repeat split; auto.
    + destruct (mode st =? "signup")%string.
      * right; right; left. repeat split; auto.
      * right; right; right. repeat split; auto.
Qed.

(** X10.  A submit reads nothing that is not on the screen.  For two
    states in the same form (same mode and reset mode, the reset mode
    being one of the three) that agree on the fields whose inputs are
    rendered, the submit handler is the same: a value left in a hidden
    field never reaches the SDK. *)
Theorem submit_reads_only_rendered_fields
  (origin : string) (st1 st2 : State)
  (Hvisible : formVisible st1 = true)
  (Htyped : In (resetMode st1) resetModes)
  (Hmode : mode st1 = mode st2)
  (Hreset : resetMode st1 = resetMode st2)
  (Hemail : showsEmailInput st1 = true -> email st1 = email st2)
  (Hpassword : showsPasswordInput st1 = true -> password st1 = password st2)
  (Hnew : showsNewPasswordInputs st1 = true ->
          newPassword st1 = newPassword st2
          /\ confirmPassword st1 = confirmPassword st2) :
  handleFormSubmit origin st1 = handleFormSubmit origin st2.
Proof.
  unfold showsEmailInput, showsPasswordInput, showsNewPasswordInputs in *.
  rewrite Hvisible in *. cbn [andb] in *.
  unfold handleFormSubmit, handlePasswordResetRequest, handlePasswordUpdate,
    handleSubmit, isResetRequest, isPasswordUpdate, isResetNone in *.
  rewrite <- Hreset, <- Hmode.
  simpl in Htyped. destruct Htyped as [E | [E | [E | []]]];
    rewrite <- E in *; cbn [String.eqb Ascii.eqb Bool.eqb negb] in *.
  - now rewrite (Hemail eq_refl), (Hpassword eq_refl).
  - now rewrite (Hemail eq_refl).
  - destruct (Hnew eq_refl) as [-> ->]. reflexivity.
Qed.

Lemma submit_reads_only_rendered_fields_witness :
  let st1 := mkState "signin" "alice@demo.test" "left-over" "" "request"
               "" "" None in
  let st2 := mkState "signin" "alice@demo.test" "" "" "request"
               "stale" "stale" (Some alice) in
  formVisible st1 = true
  /\ In (resetMode st1) resetModes
  /\ showsPasswordInput st1 = false
  /\ handleFormSubmit "https://demo.test" st1
     = handleFormSubmit "https://demo.test" st2.
Proof.
  intros st1 st2.
  assert (Hvisible : formVisible st1 = true) by reflexivity.
  assert (Htyped : In (resetMode st1) resetModes) by (simpl; tauto).
  refine (conj Hvisible (conj Htyped (conj eq_refl
            (submit_reads_only_rendered_fields "https://demo.test" st1 st2
               Hvisible Htyped eq_refl eq_refl _ _ _)))).
  - intros _. reflexivity.
  - intros H. discriminate H.
  - intros H. discriminate H.
Defined.

(** ** The address rewrite *)

Lemma occurs_app (c : ascii) (a b : string) :
  occurs c (a ++ b) = occurs c a || occurs c b.
Proof.
  induction a as [| c' a IH]; simpl; auto. now rewrite IH, orb_assoc.
Qed.

(** One byte through the serialiser and back through the parser. *)
Lemma decode_encode_byte (c : ascii) (rest : string) :
  URLSearchParams.decode (URLSearchParams.percent_encode (String c rest))
  = String c (URLSearchParams.decode (URLSearchParams.percent_encode rest)).
Proof.
  unfold URLSearchParams.decode.
  destruct c as [[] [] [] [] [] [] [] []]; reflexivity.
Qed.

Lemma decode_percent_encode (s : string) :
  URLSearchParams.decode (URLSearchParams.percent_encode s) = s.
Proof.
  induction s as [| c s IH]; [reflexivity |].
  now rewrite decode_encode_byte, IH.
Qed.

Lemma occurs_encode_byte (c : ascii) (rest : string) :
  occurs "&" (URLSearchParams.percent_encode (String c rest))
  = occurs "&" (URLSearchParams.percent_encode rest)
  /\ occurs "=" (URLSearchParams.percent_encode (String c rest))
     = occurs "=" (URLSearchParams.percent_encode rest)
  /\ occurs "#" (URLSearchParams.percent_encode (String c rest))
     = occurs "#" (URLSearchParams.percent_encode rest)
  /\ occurs "?" (URLSearchParams.percent_encode (String c rest))
     = occurs "?" (URLSearchParams.percent_encode rest).
Proof.
  destruct c as [[] [] [] [] [] [] [] []]; repeat split; reflexivity.
Qed.

Lemma percent_encode_is_plain (s : string) :
  occurs "&" (URLSearchParams.percent_encode s) = false
  /\ occurs "=" (URLSearchParams.percent_encode s) = false
  /\ occurs "#" (URLSearchParams.percent_encode s) = false
  /\ occurs "?" (URLSearchParams.percent_encode s) = false.
Proof.
  induction s as [| c s (IH1 & IH2 & IH3 & IH4)]; [repeat split; reflexivity |].
  destruct (occurs_encode_byte c s) as (-> & -> & -> & ->). auto.
Qed.

Lemma split_whole (sep : ascii) (a : string) :
  occurs sep a = false -> URLSearchParams.split sep a = [a].
Proof.
  induction a as [| c a IH]; intros H; simpl in *; [reflexivity |].
  apply orb_false_elim in H as [Hc Ha]. rewrite Hc, (IH Ha). reflexivity.
Qed.

Lemma split_at_separator (sep : ascii) (a b : string) :
  occurs sep a = false ->
  URLSearchParams.split sep (a ++ String sep b)
  = a :: URLSearchParams.split sep b.
Proof.
  induction a as [| c a IH]; intros H; simpl in *.
  - now rewrite Ascii.eqb_refl.
  - apply orb_false_elim in H as [Hc Ha]. rewrite Hc, (IH Ha). reflexivity.
Qed.

Lemma name_value_at_equals (a b : string) :
  occurs "=" a = false ->
  URLSearchParams.name_value (a ++ String "=" b) = (a, b).
Proof.
  induction a as [| c a IH]; intros H; simpl in *; [reflexivity |].
  apply orb_false_elim in H as [Hc Ha]. rewrite Hc, (IH Ha). reflexivity.
Qed.

Lemma parse_piece (n v : string) (rest : list string) :
  URLSearchParams.parse_pieces
    ((URLSearchParams.encode n ++ String "=" (URLSearchParams.encode v))
       :: rest)
  = (URLSearchParams.utf8 n, URLSearchParams.utf8 v)
      :: URLSearchParams.parse_pieces rest.
Proof.
  unfold URLSearchParams.encode.
  destruct (percent_encode_is_plain (URLSearchParams.utf8 n))
    as (_ & Heq & _).
  assert (Hshape : exists c tl,
             URLSearchParams.percent_encode (URLSearchParams.utf8 n)
               ++ String "=" (URLSearchParams.percent_encode
                                (URLSearchParams.utf8 v))
             = String c tl).
  { destruct (URLSearchParams.percent_encode (URLSearchParams.utf8 n));
      simpl; eauto. }
  destruct Hshape as (c & tl & Hshape).
  cbn [URLSearchParams.parse_pieces]. rewrite Hshape, <- Hshape.
  rewrite (name_value_at_equals _ _ Heq), !decode_percent_encode.
  reflexivity.
Qed.

Lemma piece_is_plain (n v : string) :
  occurs "&" (URLSearchParams.encode n
              ++ String "=" (URLSearchParams.encode v)) = false.
Proof.
  unfold URLSearchParams.encode. rewrite occurs_app. simpl.
  destruct (percent_encode_is_plain (URLSearchParams.utf8 n)) as (-> & _).
  destruct (percent_encode_is_plain (URLSearchParams.utf8 v)) as (-> & _).
  reflexivity.
Qed.

(** What the serialiser writes, the parser reads back. *)
Lemma parse_toString (p : URLSearchParams.t) :
  URLSearchParams.parse (URLSearchParams.toString p)
  = map (fun nv => (URLSearchParams.utf8 (fst nv),
                    URLSearchParams.utf8 (snd nv))) p.
Proof.
  unfold URLSearchParams.parse, URLSearchParams.toString.
  induction p as [| [n v] p IH]; [reflexivity |].
  destruct p as [| nv' p].
  - cbn [map URLSearchParams.join fst snd].
    rewrite (split_whole _ _ (piece_is_plain n v)), parse_piece. reflexivity.
  - change (URLSearchParams.join
              (map (fun nv => URLSearchParams.encode (fst nv)
                              ++ String "=" (URLSearchParams.encode (snd nv)))
                 ((n, v) :: nv' :: p)))
      with ((URLSearchParams.encode n
             ++ String "=" (URLSearchParams.encode v))
            ++ String "&"
                 (URLSearchParams.join
                    (map (fun nv => URLSearchParams.encode (fst nv)
                                    ++ String "="
                                         (URLSearchParams.encode (snd nv)))
                       (nv' :: p)))).
    rewrite (split_at_separator _ _ _ (piece_is_plain n v)), parse_piece, IH.
    reflexivity.
Qed.

Lemma toString_is_plain (p : URLSearchParams.t) :
  occurs "#" (URLSearchParams.toString p) = false
  /\ occurs "?" (URLSearchParams.toString p) = false.
Proof.
  unfold URLSearchParams.toString.
  assert (Hpiece : forall n v,
             occurs "#" (URLSearchParams.encode n
                         ++ String "=" (URLSearchParams.encode v)) = false
             /\ occurs "?" (URLSearchParams.encode n
                            ++ String "=" (URLSearchParams.encode v)) = false).
  { intros n v. unfold URLSearchParams.encode. rewrite !occurs_app. simpl.
    destruct (percent_encode_is_plain (URLSearchParams.utf8 n))
      as (_ & _ & -> & ->).
    destruct (percent_encode_is_plain (URLSearchParams.utf8 v))
      as (_ & _ & -> & ->). auto. }
  induction p as [| [n v] p (IH1 & IH2)]; [auto |].
  destruct (Hpiece n v) as (H1 & H2).
  destruct p as [| nv' p]; [exact (conj H1 H2) |].
  cbn [map URLSearchParams.join fst snd] in *.
  rewrite (occurs_app "#"), (occurs_app "?"). cbn [occurs].
  rewrite H1, H2, IH1, IH2. auto.
Qed.

Lemma has_guard_is_redundant (p : URLSearchParams.t) (name : string) :
  (if URLSearchParams.has p name then URLSearchParams.delete p name else p)
  = URLSearchParams.delete p name.
Proof.
  unfold URLSearchParams.has, URLSearchParams.delete.
  destruct (URLSearchParams.get p name) eqn:E; [reflexivity |].
  induction p as [| [n v] p IH]; [reflexivity |].
  simpl in *. destruct (n =? name)%string; [discriminate |].
  simpl. now rewrite <- IH.
Qed.

Lemma create_rewrittenSearch (location : Location) :
  URLSearchParams.create (rewrittenSearch location)
  = URLSearchParams.parse (rewrittenQuery location).
Proof.
  unfold rewrittenSearch.
  destruct (rewrittenQuery location) as [| c q] eqn:E; reflexivity.
Qed.

Lemma ascii_only_app (a b : string) :
  ascii_only (a ++ b) = ascii_only a && ascii_only b.
Proof.
  induction a as [| c a IH]; simpl; auto. now rewrite IH, andb_assoc.
Qed.

Lemma lead_needs_more (c : ascii) (n l h : nat) :
  URLSearchParams.lead c = Some (n, l, h) -> n <> 0.
Proof.
  unfold URLSearchParams.lead.
  repeat match goal with
         | |- context [if ?b then _ else _] => destruct b
         end; intros H; inversion H; discriminate.
Qed.

(** Text that comes out of the UTF-8 round trip as plain ASCII went in as
    the same plain ASCII. *)
Lemma utf8_from_ascii (s : string) :
  forall need lo hi seen,
    (need <> 0 -> ascii_only seen = false) ->
    ascii_only (URLSearchParams.utf8_from s need lo hi seen) = true ->
    need = 0 /\ URLSearchParams.utf8_from s need lo hi seen = s.
Proof.
  induction s as [| c s IH]; intros need lo hi seen Hseen Hout.
  - destruct need; [now split | discriminate Hout].
  - cbn [URLSearchParams.utf8_from] in *.
    destruct need as [| n].
    + destruct (nat_of_ascii c <? 128) eqn:Eb.
      * cbn [ascii_only] in Hout. rewrite Eb in Hout.
        destruct (IH 0 0 0 EmptyString (fun H => False_ind _ (H eq_refl)) Hout)
          as (_ & ->).
        now split.
      * destruct (URLSearchParams.lead c) as [[[n l] h] |] eqn:El.
        -- assert (Hc : n <> 0 -> ascii_only (String c EmptyString) = false)
             by (intros _; simpl; now rewrite Eb).
           destruct (IH n l h _ Hc Hout) as (Hn & _).
           now elim (lead_needs_more c n l h El).
        -- rewrite ascii_only_app in Hout. discriminate Hout.
    + assert (Hs : ascii_only seen = false) by (apply Hseen; discriminate).
      destruct ((lo <=? nat_of_ascii c) && (nat_of_ascii c <=? hi)).
      * destruct n as [| n].
        -- rewrite ascii_only_app, Hs in Hout. discriminate Hout.
        -- assert (Hc : S n <> 0 ->
                         ascii_only (seen ++ String c EmptyString) = false)
             by (intros _; now rewrite ascii_only_app, Hs).
           destruct (IH (S n) 128 191 _ Hc Hout) as (Hn & _).
           discriminate Hn.
      * rewrite ascii_only_app in Hout. discriminate Hout.
Qed.

Lemma utf8_ascii_literal (n literal : string) :
  ascii_only literal = true ->
  URLSearchParams.utf8 n = literal -> n = literal.
Proof.
  intros Hl Hn. unfold URLSearchParams.utf8 in Hn.
  assert (Hout : ascii_only (URLSearchParams.utf8_from n 0 0 0 EmptyString)
                 = true) by now rewrite Hn.
  destruct (utf8_from_ascii n 0 0 0 EmptyString
              (fun H => False_ind _ (H eq_refl)) Hout) as (_ & Hsame).
  congruence.
Qed.

Lemma get_after_delete (p : URLSearchParams.t) (name : string) :
  ascii_only name = true ->
  URLSearchParams.get
    (map (fun nv => (URLSearchParams.utf8 (fst nv),
                     URLSearchParams.utf8 (snd nv)))
       (URLSearchParams.delete p name)) name
  = None.
Proof.
  intros Hname. unfold URLSearchParams.delete.
  induction p as [| [n v] p IH]; [reflexivity |].
  cbn [filter fst]. destruct (n =? name)%string eqn:E; cbn [negb]; [exact IH |].
  cbn [map URLSearchParams.get fst snd].
  destruct (URLSearchParams.utf8 n =? name)%string eqn:E'; [| exact IH].
  apply String.eqb_eq in E'. apply (utf8_ascii_literal n name Hname) in E'.
  apply String.eqb_neq in E. contradiction.
Qed.

Lemma rewrittenQuery_kept (location : Location) :
  rewrittenQuery location
  = URLSearchParams.toString
      (URLSearchParams.delete
         (URLSearchParams.create
            (URLSearchParams.strip_leading "?" (search location)))
         "password-reset").
Proof. unfold rewrittenQuery. cbv zeta. now rewrite has_guard_is_redundant. Qed.

Lemma create_rewrittenSearch_kept (location : Location) :
  URLSearchParams.create (rewrittenSearch location)
  = map (fun nv => (URLSearchParams.utf8 (fst nv),
                    URLSearchParams.utf8 (snd nv)))
      (URLSearchParams.delete
         (URLSearchParams.create
            (URLSearchParams.strip_leading "?" (search location)))
         "password-reset").
Proof.
  now rewrite create_rewrittenSearch, rewrittenQuery_kept, parse_toString.
Qed.

Lemma rewrittenSearch_has_no_marker (location : Location) :
  URLSearchParams.get (URLSearchParams.create (rewrittenSearch location))
    "password-reset" = None.
Proof. rewrite create_rewrittenSearch_kept. now apply get_after_delete. Qed.

(** X11.  The address rewrite keeps everything but the marker.  The URL the
    second effect hands to replaceState is the page's path followed by a
    query string that has no fragment and that parses back to the
    parameters of the old query, in their order, without those named
    "password-reset" (names and values as text, that is after the UTF-8
    round trip of the browser); the query is left out altogether when no
    parameter remains. *)
Theorem rewrite_keeps_the_other_parameters (location : Location) :
  let kept :=
    URLSearchParams.delete
      (URLSearchParams.create
         (URLSearchParams.strip_leading "?" (search location)))
      "password-reset" in
  rewrittenUrl location = pathname location ++ rewrittenSearch location
  /\ URLSearchParams.create (rewrittenSearch location)
     = map (fun nv => (URLSearchParams.utf8 (fst nv),
                       URLSearchParams.utf8 (snd nv))) kept
  /\ (kept = [] <-> rewrittenSearch location = "")
  /\ occurs "#" (rewrittenSearch location) = false
  /\ URLSearchParams.get (URLSearchParams.create (rewrittenSearch location))
       "password-reset" = None.
Proof.
  intros kept.
  assert (Hquery : rewrittenQuery location = URLSearchParams.toString kept)
    by apply rewrittenQuery_kept.
  assert (Hcreate : URLSearchParams.create (rewrittenSearch location)
                    = map (fun nv => (URLSearchParams.utf8 (fst nv),
                                      URLSearchParams.utf8 (snd nv))) kept)
    by apply create_rewrittenSearch_kept.
  split; [reflexivity |]. split; [exact Hcreate |]. split; [| split].
  - unfold rewrittenSearch. rewrite Hquery. split.
    + intros ->. reflexivity.
    + destruct kept as [| [n v] kept']; [reflexivity |].
      intros H. exfalso.
      assert (Hne : truthy (URLSearchParams.toString ((n, v) :: kept'))
                    = true).
      { unfold URLSearchParams.toString. cbn [map fst snd].
        destruct (map _ kept');
          cbn [URLSearchParams.join];
          destruct (URLSearchParams.encode n); reflexivity. }
      rewrite Hne in H. discriminate H.
  - unfold rewrittenSearch. rewrite Hquery.
    destruct (truthy (URLSearchParams.toString kept)); [| reflexivity].
    cbn [occurs]. now destruct (toString_is_plain kept) as (-> & _).
  - apply rewrittenSearch_has_no_marker.
Qed.

(** X12.  Recovery is detected once.  The second effect rewrites the
    address exactly when the page was opened from a recovery redirect; and
    where the browser takes the rewritten URL, that is where the page's
    path begins with one slash and not with two, the address left behind
    is no recovery redirect any more: a component mounted on it starts
    with reset mode "none" and an empty status, and rewrites nothing. *)
Theorem recovery_rewrite_is_one_shot
  (location : Location) (user : option User)
  (Hpath : replaceStateAccepts location = true) :
  recoveryRewrite (Some location)
    = (if hasRecoveryParams (Some location)
       then Some (rewrittenUrl location) else None)
  /\ recoveryRewrite None = None
  /\ addressAfterRewrite location = rewrittenLocation location
  /\ hasRecoveryParams (Some (addressAfterRewrite location)) = false
  /\ recoveryRewrite (Some (addressAfterRewrite location)) = None
  /\ resetMode (initialState (Some (addressAfterRewrite location)) user)
     = "none"
  /\ status (initialState (Some (addressAfterRewrite location)) user) = "".
Proof.
  assert (Hafter : addressAfterRewrite location = rewrittenLocation location)
    by (unfold addressAfterRewrite; now rewrite Hpath).
  assert (Hgone : hasRecoveryParams (Some (addressAfterRewrite location))
                  = false).
  { rewrite Hafter.
    unfold hasRecoveryParams, rewrittenLocation. cbn [hash search].
    change (URLSearchParams.get
              (URLSearchParams.create (URLSearchParams.strip_leading "#" ""))
              "type") with (@None string).
    cbn [strict_eq].
    now rewrite rewrittenSearch_has_no_marker. }
  split; [| split; [reflexivity |]].
  - unfold recoveryRewrite.
    destruct (hasRecoveryParams (Some location)); reflexivity.
  - split; [exact Hafter |]. split; [exact Hgone |]. split.
    + unfold recoveryRewrite. now rewrite Hgone.
    + unfold initialState. cbn [resetMode status]. now rewrite Hgone.
Qed.

Lemma recovery_rewrite_is_one_shot_witness :
  let location :=
    mkLocation "https://demo.test" "/email-password"
      "?password-reset=true&next=%2Fhome" "#type=recovery" in
  replaceStateAccepts location = true
  /\ hasRecoveryParams (Some location) = true
  /\ recoveryRewrite (Some location) = Some "/email-password?next=%2Fhome"
  /\ hasRecoveryParams (Some (addressAfterRewrite location)) = false
  /\ resetMode (initialState (Some (addressAfterRewrite location)) None)
     = "none".
Proof.
  intros location.
  assert (Hpath : replaceStateAccepts location = true) by reflexivity.
  destruct (recovery_rewrite_is_one_shot location None Hpath)
    as (Hrewrite & _ & _ & Hgone & _ & Hmode & _).
  exact (conj Hpath (conj eq_refl (conj Hrewrite (conj Hgone Hmode)))).
Defined.

(** ** The layouts of the form *)

(** X13.  In every state an execution reaches, the form, when it is on
    screen, has one of three layouts and never a mixture: credentials
    (email and password, with the sign-up / sign-in switch), reset request
    (email alone, with "Back to sign in"), or password update (new password
    and confirmation alone, with "Back to sign in"); "Forgot password?" is
    offered only in the first.  And when the form is not on screen, the
    "Sign out" button is. *)
Theorem form_has_one_of_three_layouts
  (window : Location) (user : option User) (client : nat)
  (evs : list Event) (m : Machine)
  (Hexec : steps (mount window user client) evs = Some m) :
  let st := ui m in
  let controls :=
    (showsEmailInput st, showsPasswordInput st, showsNewPasswordInputs st,
     showsModeSwitch st, showsBackButton st) in
  (formVisible st = true ->
     (controls = (true, true, false, true, false)
      /\ primaryButtonLabel st <> "Send reset email"
      /\ primaryButtonLabel st <> "Update password")
     \/ (controls = (true, false, false, false, true)
         /\ primaryButtonLabel st = "Send reset email"
         /\ showsForgotPassword st = false)
     \/ (controls = (false, false, true, false, true)
         /\ primaryButtonLabel st = "Update password"
         /\ showsForgotPassword st = false))
  /\ (formVisible st = false ->
      is_some (currentUser st) = true
      /\ controls = (false, false, false, false, false)).
Proof.
  intros st controls. subst st controls.
  destruct (well_typed_steps _ _ _ _ _ Hexec) as (_ & _ & Hr).
  unfold showsEmailInput, showsPasswordInput, showsNewPasswordInputs,
    showsModeSwitch, showsBackButton, showsForgotPassword, primaryButtonLabel.
  split.
  - intros Hv. rewrite Hv.
    unfold isResetNone, isPasswordUpdate, isResetRequest.
    simpl in Hr. destruct Hr as [E | [E | [E | []]]]; rewrite <- E.
    + left. split; [reflexivity |]. cbn [String.eqb Ascii.eqb Bool.eqb].
      destruct (mode (ui m) =? "signup")%string; split; discriminate.
    + right; left. repeat split; reflexivity.
    + right; right. repeat split; reflexivity.
  - intros Hv. rewrite Hv. split; [| reflexivity].
    unfold formVisible in Hv. apply orb_false_elim in Hv as [Hu _].
    now destruct (currentUser (ui m)).
Qed.

Lemma form_has_one_of_three_layouts_witness :
  let evs := [ClickMode "signin"; ClickForgotPassword] in
  let m := step (step (mount plainLocation None 0) (ClickMode "signin"))
             ClickForgotPassword in
  steps (mount plainLocation None 0) evs = Some m
  /\ formVisible (ui m) = true
  /\ ((showsEmailInput (ui m), showsPasswordInput (ui m),
       showsNewPasswordInputs (ui m), showsModeSwitch (ui m),
       showsBackButton (ui m)) = (true, false, false, false, true)
      /\ primaryButtonLabel (ui m) = "Send reset email"
      /\ showsForgotPassword (ui m) = false).
Proof.
  intros evs m.
  assert (Hexec : steps (mount plainLocation None 0) evs = Some m)
    by reflexivity.
  assert (Hvisible : formVisible (ui m) = true) by reflexivity.
  pose proof (form_has_one_of_three_layouts plainLocation None 0 evs m Hexec)
    as H.
  cbv zeta in H. destruct H as (Hform & _).
  destruct (Hform Hvisible) as [(Hc & _) | [Hrequest | (Hc & _)]].
  - discriminate Hc.
  - exact (conj Hexec (conj Hvisible Hrequest)).
  - discriminate Hc.
Defined.
